(** * STRATIFY frontend: a shallow embedding of the dashboard, investor
    directory, chat store, route guard and authentication pages.

    The amounts of the dashboard and of the runway projection are modelled
    as exact rationals ([Q]); an investor's match score, whose rounded
    digits are shown, is a binary64 double with the runtime's own product.
    A text is held as its UTF-8 bytes, and its [length] is counted in UTF-16
    code units.  A value that may be [undefined] or [null] is an [option];
    React state, the zustand stores, the router and the network are fields
    of an explicit world that handlers transform.  An [async] handler is
    modelled as one uninterrupted run in which every awaited call completes
    with the outcome the environment supplies; where the order of two
    answers matters, a handler is split at its [await]. *)

From Stdlib Require Import QArith Qminmax Qabs Qpower ZArith String Ascii List
  Bool DecimalString Lia Lqa.
From Stdlib Require Floats.
Import ListNotations.
Open Scope string_scope.

(* ================================================================== *)
(** ** JavaScript values used by the sources *)

Module Js.

(** [String(n)] for an integral number. *)
Definition toString (n : Z) : string := NilZero.string_of_int (Z.to_int n).

(** Truthiness of an optional number: [undefined], [null] and [0] are falsy. *)
Definition truthy (x : option Q) : bool :=
  match x with
  | Some q => negb (Qeq_bool q 0)
  | None => false
  end.

(** [x || 0] on an optional number. *)
Definition or0 (x : option Q) : Q :=
  match x with
  | Some q => if Qeq_bool q 0 then 0%Q else q
  | None => 0%Q
  end.

(** The value of an arithmetic expression: a finite number, or one of [NaN],
    [Infinity] and [-Infinity]. *)
Inductive Num : Type :=
| Fin (q : Q)
| NonFinite.

(** An optional field read as an operand: [undefined] becomes [NaN]. *)
Definition toNumber (x : option Q) : Num :=
  match x with
  | Some q => Fin q
  | None => NonFinite
  end.

Definition sub (a b : Num) : Num :=
  match a, b with
  | Fin x, Fin y => Fin (x - y)
  | _, _ => NonFinite
  end.

Definition mul (a b : Num) : Num :=
  match a, b with
  | Fin x, Fin y => Fin (x * y)
  | _, _ => NonFinite
  end.

(** [a / b]: a zero divisor yields [Infinity], [-Infinity] or [NaN]. *)
Definition div (a b : Num) : Num :=
  match a, b with
  | Fin x, Fin y => if Qeq_bool y 0 then NonFinite else Fin (x / y)
  | _, _ => NonFinite
  end.

Definition isFinite (a : Num) : bool :=
  match a with
  | Fin _ => true
  | NonFinite => false
  end.

(** A number whose arithmetic the sources leave to the runtime and whose
    digits are shown: a binary64 double, with the runtime's own
    multiplication. *)
Definition double : Set := PrimFloat.float.

(** What [Math.round] returns: an integral number, or its argument when
    that is not finite.  A negative zero is the integer 0; both read "0". *)
Inductive Rounded : Type :=
| Integral (z : Z)
| NotANumber
| PlusInfinity
| MinusInfinity.

(** The integer nearest to [n * 2 ^ e], a half going up. *)
Definition roundHalfUp (n e : Z) : Z :=
  if (0 <=? e)%Z then (n * 2 ^ e)%Z
  else ((2 * n + 2 ^ (- e)) / (2 * 2 ^ (- e)))%Z.

(** [Math.round] *)
Definition round (x : double) : Rounded :=
  match FloatOps.Prim2SF x with
  | SpecFloat.S754_zero _ => Integral 0
  | SpecFloat.S754_finite s m e => Integral (roundHalfUp (if s then Z.neg m else Z.pos m) e)
  | SpecFloat.S754_infinity false => PlusInfinity
  | SpecFloat.S754_infinity true => MinusInfinity
  | SpecFloat.S754_nan => NotANumber
  end.

(** [String(n)] for the values of [Math.round], where the text is the plain
    one: from a magnitude of 1e21 on the runtime writes an exponent, which
    is not spelled out here. *)
Definition numberText (n : Rounded) : option string :=
  match n with
  | Integral z =>
      if (Z.abs z <? 10 ^ 21)%Z then Some (NilZero.string_of_int (Z.to_int z)) else None
  | NotANumber => Some "NaN"
  | PlusInfinity => Some "Infinity"
  | MinusInfinity => Some "-Infinity"
  end.

(** [s.length], the number of UTF-16 code units, for a text held as its
    UTF-8 bytes.  [pending] counts the continuation bytes the character
    being read still expects.  A character outside the basic plane (a lead
    byte from 0xF0) takes two units, every other character one; a byte
    that continues nothing counts as one unit, as the replacement character
    a decoder puts in its place would. *)
Fixpoint lengthFrom (pending : nat) (s : string) : nat :=
  match s with
  | EmptyString => 0
  | String c rest =>
      let n := N_of_ascii c in
      if ((128 <=? n) && (n <? 192))%N then
        match pending with
        | O => S (lengthFrom 0 rest)
        | S p => lengthFrom p rest
        end
      else if ((240 <=? n) && (n <? 248))%N then S (S (lengthFrom 3 rest))
      else if ((224 <=? n) && (n <? 240))%N then S (lengthFrom 2 rest)
      else if ((192 <=? n) && (n <? 224))%N then S (lengthFrom 1 rest)
      else S (lengthFrom 0 rest)
  end.

Definition stringLength (s : string) : nat := lengthFrom 0 s.

(** The UTF-8 bytes of a code point. *)
Definition utf8 (cp : N) : string :=
  if (cp <? 128)%N then String (ascii_of_N cp) ""
  else if (cp <? 2048)%N then
    String (ascii_of_N (192 + cp / 64))
      (String (ascii_of_N (128 + cp mod 64)) "")
  else if (cp <? 65536)%N then
    String (ascii_of_N (224 + cp / 4096))
      (String (ascii_of_N (128 + (cp / 64) mod 64))
         (String (ascii_of_N (128 + cp mod 64)) ""))
  else
    String (ascii_of_N (240 + cp / 262144))
      (String (ascii_of_N (128 + (cp / 4096) mod 64))
         (String (ascii_of_N (128 + (cp / 64) mod 64))
            (String (ascii_of_N (128 + cp mod 64)) ""))).

(** The text made of the given code points. *)
Fixpoint encode (cps : list N) : string :=
  match cps with
  | [] => ""
  | cp :: rest => utf8 cp ++ encode rest
  end.

(** The UTF-16 code units of a code point: two (a surrogate pair) outside
    the basic plane. *)
Definition codeUnits (cp : N) : nat := if (cp <? 65536)%N then 1 else 2.

(** [arr[i]] for a numeric index, [undefined] outside the array. *)
Definition index {A : Type} (arr : list A) (i : Z) : option A :=
  if (i <? 0)%Z then None else nth_error arr (Z.to_nat i).

(** [arr.length] *)
Definition length {A : Type} (arr : list A) : Z := Z.of_nat (List.length arr).

(** What a [throw] carries: an [Error] object with its message, or any other
    value ([error instanceof Error] tells them apart). *)
Inductive Thrown : Type :=
| ErrorObject (message : string)
| OtherValue.

Inductive Completion (A : Type) : Type :=
| Normal (a : A)
| Abrupt (e : Thrown).
Arguments Normal {A} a.
Arguments Abrupt {A} e.

(** A computation over a world [W] that returns or throws. *)
Definition Eff (W A : Type) : Type := W -> Completion A * W.

Definition ret {W A} (a : A) : Eff W A := fun w => (Normal a, w).

Definition bind {W A B} (m : Eff W A) (k : A -> Eff W B) : Eff W B :=
  fun w =>
    match m w with
    | (Normal a, w') => k a w'
    | (Abrupt e, w') => (Abrupt e, w')
    end.

Definition throw {W A} (e : Thrown) : Eff W A := fun w => (Abrupt e, w).

Definition get {W} : Eff W W := fun w => (Normal w, w).

Definition modify {W} (f : W -> W) : Eff W unit := fun w => (Normal tt, f w).

(** An awaited promise that settles with [c]. *)
Definition settle {W A} (c : Completion A) : Eff W A := fun w => (c, w).

(** [try { body } catch (e) { handler e }] *)
Definition try_catch {W A} (body : Eff W A) (handler : Thrown -> Eff W A) : Eff W A :=
  fun w =>
    match body w with
    | (Normal a, w') => (Normal a, w')
    | (Abrupt e, w') => handler e w'
    end.

(** [try { body } finally { fin }]: [fin] always runs; an abrupt [fin]
    replaces the completion of [body]. *)
Definition try_finally {W A} (body : Eff W A) (fin : Eff W unit) : Eff W A :=
  fun w =>
    match body w with
    | (c, w') =>
        match fin w' with
        | (Normal _, w'') => (c, w'')
        | (Abrupt e, w'') => (Abrupt e, w'')
        end
    end.

Definition try_catch_finally {W A} (body : Eff W A) (handler : Thrown -> Eff W A)
    (fin : Eff W unit) : Eff W A :=
  try_finally (try_catch body handler) fin.

Definition exec {W A} (m : Eff W A) (w : W) : W := snd (m w).
Definition completion {W A} (m : Eff W A) (w : W) : Completion A := fst (m w).

End Js.

Declare Scope eff_scope.
Delimit Scope eff_scope with eff.
Notation "x <- m ;; k" := (Js.bind m (fun x => k))
  (at level 61, m at next level, right associativity) : eff_scope.
Notation "m ;; k" := (Js.bind m (fun _ => k))
  (at level 61, right associativity) : eff_scope.

(* ================================================================== *)
(** ** Runway and scenario projection *)

Module Runway.
Open Scope Q_scope.

(** A dated snapshot of revenue, expenses and cash balance. *)
Record FinancialRecord : Type := {
  revenue : Q;
  expenses : Q;
  cash_balance : Q
}.

(** A what-if delta: expense change, revenue change and a one-time cash
    injection. *)
Record Scenario : Type := {
  expense_change : Q;
  revenue_change : Q;
  cash_injection : Q
}.

(** Modelled from the spec: the backend service that computes the burn rate
    is not among the sources; "burn_rate = expenses - revenue for the latest
    period". *)
Definition burn_rate (r : FinancialRecord) : Q := expenses r - revenue r.

(** Modelled from the spec: the backend service that computes the runway is
    not among the sources; "Runway = cash_balance / max(burn_rate, epsilon)".
    The spec leaves the value of epsilon open, so it is an argument. *)
Definition runway (epsilon : Q) (r : FinancialRecord) : Q :=
  cash_balance r / Qmax (burn_rate r) epsilon.

(** Modelled from the spec: the scenario engine is not among the sources;
    "recompute runway with expense/revenue baselines shifted by the
    scenario's stored deltas", the one-time cash being added to the balance. *)
Definition apply_scenario (s : Scenario) (r : FinancialRecord) : FinancialRecord :=
  {| revenue := revenue r + revenue_change s;
     expenses := expenses r + expense_change s;
     cash_balance := cash_balance r + cash_injection s |}.

Definition projected_runway (epsilon : Q) (s : Scenario) (r : FinancialRecord) : Q :=
  runway epsilon (apply_scenario s r).

(** The record of the spec's example. *)
Definition example_record : FinancialRecord :=
  {| revenue := 22000; expenses := 50000; cash_balance := 142000 |}.

(** A baseline whose revenue exceeds its expenses by more than 25000. *)
Definition profitable_record : FinancialRecord :=
  {| revenue := 100000; expenses := 50000; cash_balance := 142000 |}.

(** The hiring scenario of the spec's example: expenses up by 25000. *)
Definition hire_scenario : Scenario :=
  {| expense_change := 25000; revenue_change := 0; cash_injection := 0 |}.

Lemma burn_rate_example : burn_rate example_record == 28000.
Proof. reflexivity. Qed.

Lemma Qmax_pos_r (a e : Q) : 0 < e -> 0 < Qmax a e.
Proof.
  intros He. apply Qlt_le_trans with e; [exact He | apply Q.le_max_r].
Qed.

(** A positive amount divided by a larger positive divisor is smaller. *)
Lemma Qdiv_lt_divisor (c d1 d2 : Q) :
  0 < c -> 0 < d1 -> d1 < d2 -> c / d2 < c / d1.
Proof.
  intros Hc Hd1 Hlt.
  assert (Hd2 : 0 < d2) by (apply Qlt_trans with d1; assumption).
  apply Qlt_shift_div_l; [exact Hd1 |].
  setoid_replace (c / d2 * d1) with (c * d1 / d2)
    by (field; intro E; rewrite E in Hd2; discriminate).
  apply Qlt_shift_div_r; [exact Hd2 |].
  rewrite (Qmult_comm c d1), (Qmult_comm c d2).
  apply Qmult_lt_r; assumption.
Qed.

Lemma burn_rate_apply (s : Scenario) (r : FinancialRecord) :
  burn_rate (apply_scenario s r)
  == burn_rate r + expense_change s - revenue_change s.
Proof. unfold burn_rate, apply_scenario; simpl. ring. Qed.

(** A baseline whose burn stays at or below epsilon after the shift keeps
    its runway. *)
Lemma runway_unchanged_below_epsilon (epsilon : Q) (s : Scenario) (r : FinancialRecord) :
  cash_injection s == 0 ->
  burn_rate r <= epsilon ->
  burn_rate (apply_scenario s r) <= epsilon ->
  projected_runway epsilon s r == runway epsilon r.
Proof.
  intros Hc Hb Hb'. unfold projected_runway, runway.
  rewrite (Q.max_r _ _ Hb), (Q.max_r _ _ Hb').
  simpl. rewrite Hc. rewrite Qplus_0_r. reflexivity.
Qed.

(** C1: for expenses = 50000, revenue = 22000 and cash_balance = 142000 the
    runway is cash_balance / max(burn_rate, epsilon) with burn_rate = 28000,
    that is 142000 / 28000, which rounds to 5.07 months (it lies within
    0.005 of 5.07), for every positive epsilon not above the burn rate. *)
Theorem runway_example (epsilon : Q) :
  0 < epsilon -> epsilon <= 28000 ->
  runway epsilon example_record == 142000 / 28000 /\
  runway epsilon example_record
    == cash_balance example_record / Qmax (burn_rate example_record) epsilon /\
  (507 # 100) - (5 # 1000) <= runway epsilon example_record /\
  runway epsilon example_record < (507 # 100) + (5 # 1000).
Proof.
  intros Hpos Hle.
  assert (E : runway epsilon example_record == 142000 / 28000).
  { unfold runway. rewrite Q.max_l by (rewrite burn_rate_example; exact Hle).
    reflexivity. }
  split; [exact E |]. split; [reflexivity |].
  rewrite E. split; [discriminate | reflexivity].
Qed.

Lemma runway_example_witness :
  runway (1 # 100) example_record == 142000 / 28000 /\
  runway (1 # 100) example_record
    == cash_balance example_record / Qmax (burn_rate example_record) (1 # 100) /\
  (507 # 100) - (5 # 1000) <= runway (1 # 100) example_record /\
  runway (1 # 100) example_record < (507 # 100) + (5 # 1000).
Proof.
  apply (runway_example (1 # 100)); [reflexivity | discriminate].
Defined.

(** C3, as stated, fails: a baseline whose revenue exceeds its expenses by
    more than 25000 has a burn below epsilon before and after the shift, so
    the hiring scenario leaves its runway where it was. *)
Lemma expense_increase_not_always_shorter :
  ~ (projected_runway (1 # 100) hire_scenario profitable_record
       < runway (1 # 100) profitable_record).
Proof.
  apply Qle_not_lt. apply Qle_lteq. right. symmetry.
  apply runway_unchanged_below_epsilon; [reflexivity | discriminate | discriminate].
Qed.

(** C3, amended: for a baseline with a positive cash balance, a scenario that
    raises expenses by 25000 and leaves revenue and cash unchanged shortens
    the runway strictly, provided the projected burn exceeds epsilon. *)
Theorem expense_increase_shortens_runway
  (epsilon : Q) (s : Scenario) (r : FinancialRecord) :
  0 < epsilon ->
  expense_change s == 25000 -> revenue_change s == 0 -> cash_injection s == 0 ->
  0 < cash_balance r ->
  epsilon < burn_rate r + 25000 ->
  projected_runway epsilon s r < runway epsilon r.
Proof.
  intros Heps He Hr Hc Hcash Hburn.
  assert (Hb : burn_rate (apply_scenario s r) == burn_rate r + 25000).
  { rewrite burn_rate_apply, He, Hr. ring. }
  unfold projected_runway, runway. rewrite Hb.
  assert (Hcb : cash_balance (apply_scenario s r) == cash_balance r).
  { simpl. rewrite Hc. ring. }
  rewrite Hcb.
  apply Qdiv_lt_divisor; [exact Hcash | apply Qmax_pos_r; exact Heps |].
  apply Q.max_lub_lt.
  - apply Qlt_le_trans with (burn_rate r + 25000).
    + rewrite <- (Qplus_0_r (burn_rate r)) at 1.
      apply Qplus_lt_r. reflexivity.
    + apply Q.le_max_l.
  - apply Qlt_le_trans with (burn_rate r + 25000); [exact Hburn | apply Q.le_max_l].
Qed.

Lemma expense_increase_shortens_runway_witness :
  projected_runway (1 # 100) hire_scenario example_record
    < runway (1 # 100) example_record.
Proof.
  apply (expense_increase_shortens_runway (1 # 100) hire_scenario example_record);
    reflexivity.
Defined.

End Runway.

(* ================================================================== *)
(** ** DashboardPage: the derived figures of the Analytics tab *)

Module Dashboard.
Open Scope Q_scope.

(** One month of the cash-flow series; [income] and [expenses] may be
    missing. *)
Record CashFlowPoint : Type := {
  balance : Q;
  income : option Q;
  expenses : option Q
}.

(** [data?.cashFlow || []] *)
Definition cashFlowOf (data : option (list CashFlowPoint)) : list CashFlowPoint :=
  match data with
  | Some cf => cf
  | None => []
  end.

(** [cashFlow[cashFlow.length - 1]] *)
Definition latestMonth (cashFlow : list CashFlowPoint) : option CashFlowPoint :=
  Js.index cashFlow (Js.length cashFlow - 1).

(** [cashFlow.length > 1 ? cashFlow[cashFlow.length - 2] : null] *)
Definition previousMonth (cashFlow : list CashFlowPoint) : option CashFlowPoint :=
  if (1 <? Js.length cashFlow)%Z
  then Js.index cashFlow (Js.length cashFlow - 2)
  else None.

(** [latestMonth?.income] and [latestMonth?.expenses] *)
Definition optField (f : CashFlowPoint -> option Q) (m : option CashFlowPoint) : option Q :=
  match m with
  | Some p => f p
  | None => None
  end.

(** [((latest - previous) / previous) * 100] on two fields. *)
Definition percentChange (latest previous : option Q) : Js.Num :=
  Js.mul
    (Js.div (Js.sub (Js.toNumber latest) (Js.toNumber previous)) (Js.toNumber previous))
    (Js.Fin 100).

Definition revenueGrowth (cashFlow : list CashFlowPoint) : Js.Num :=
  match previousMonth cashFlow with
  | Some previous =>
      if Js.truthy (income previous) && Js.truthy (optField income (latestMonth cashFlow))
      then percentChange (optField income (latestMonth cashFlow)) (income previous)
      else Js.Fin 0
  | None => Js.Fin 0
  end.

Definition expenseChange (cashFlow : list CashFlowPoint) : Js.Num :=
  match previousMonth cashFlow with
  | Some previous =>
      if Js.truthy (expenses previous) && Js.truthy (optField expenses (latestMonth cashFlow))
      then percentChange (optField expenses (latestMonth cashFlow)) (expenses previous)
      else Js.Fin 0
  | None => Js.Fin 0
  end.

(** [month ? (month.expenses || 0) - (month.income || 0) : 0] *)
Definition burnOf (month : option CashFlowPoint) : Q :=
  match month with
  | Some m => Js.or0 (expenses m) - Js.or0 (income m)
  | None => 0
  end.

Definition latestBurn (cashFlow : list CashFlowPoint) : Q :=
  burnOf (latestMonth cashFlow).

Definition previousBurn (cashFlow : list CashFlowPoint) : Q :=
  burnOf (previousMonth cashFlow).

(** [previousBurn !== 0
      ? ((latestBurn - previousBurn) / Math.abs(previousBurn)) * 100 : 0] *)
Definition burnChange (cashFlow : list CashFlowPoint) : Js.Num :=
  if negb (Qeq_bool (previousBurn cashFlow) 0)
  then Js.mul
         (Js.div (Js.Fin (latestBurn cashFlow - previousBurn cashFlow))
                 (Js.Fin (Qabs (previousBurn cashFlow))))
         (Js.Fin 100)
  else Js.Fin 0.

(** *** Properties *)

Lemma index_last {A : Type} (pre : list A) (m : A) :
  Js.index (pre ++ [m]) (Js.length (pre ++ [m]) - 1) = Some m.
Proof.
  unfold Js.index, Js.length. rewrite length_app. simpl.
  replace (Z.of_nat (List.length pre + 1) - 1)%Z with (Z.of_nat (List.length pre)) by lia.
  destruct (Z.ltb_spec (Z.of_nat (List.length pre)) 0); [lia |].
  rewrite Nat2Z.id, nth_error_app2 by lia.
  rewrite Nat.sub_diag. reflexivity.
Qed.

Lemma latestMonth_last (pre : list CashFlowPoint) (m : CashFlowPoint) :
  latestMonth (pre ++ [m]) = Some m.
Proof. apply index_last. Qed.

Lemma latestMonth_empty : latestMonth [] = None.
Proof. reflexivity. Qed.

Lemma previousMonth_short (cashFlow : list CashFlowPoint) :
  (List.length cashFlow <= 1)%nat -> previousMonth cashFlow = None.
Proof.
  intros H. unfold previousMonth, Js.length.
  destruct (Z.ltb_spec 1 (Z.of_nat (List.length cashFlow))); [lia | reflexivity].
Qed.

Lemma or0_present (q : Q) : Js.or0 (Some q) == q.
Proof.
  simpl. destruct (Qeq_bool q 0) eqn:E; [| reflexivity].
  symmetry. apply Qeq_bool_eq. exact E.
Qed.

Lemma truthy_some (x : option Q) :
  Js.truthy x = true -> exists q, x = Some q /\ Qeq_bool q 0 = false.
Proof.
  destruct x as [q |]; simpl; [| discriminate].
  intros H. exists q. split; [reflexivity |].
  apply negb_true_iff. exact H.
Qed.

(** With a truthy previous value and a truthy latest value the percentage is
    a finite number: the divisor is not zero. *)
Lemma percentChange_finite (latest previous : option Q) :
  Js.truthy previous = true -> Js.truthy latest = true ->
  exists q, percentChange latest previous = Js.Fin q.
Proof.
  intros Hp Hl.
  destruct (truthy_some _ Hp) as [p [-> Ep]].
  destruct (truthy_some _ Hl) as [l [-> _]].
  unfold percentChange. simpl. rewrite Ep. eexists. reflexivity.
Qed.

Lemma revenueGrowth_finite (cashFlow : list CashFlowPoint) :
  exists q, revenueGrowth cashFlow = Js.Fin q.
Proof.
  unfold revenueGrowth.
  destruct (previousMonth cashFlow) as [previous |]; [| exists 0; reflexivity].
  destruct (Js.truthy (income previous)) eqn:Hp; simpl; [| exists 0; reflexivity].
  destruct (Js.truthy (optField income (latestMonth cashFlow))) eqn:Hl;
    [| exists 0; reflexivity].
  apply percentChange_finite; assumption.
Qed.

Lemma expenseChange_finite (cashFlow : list CashFlowPoint) :
  exists q, expenseChange cashFlow = Js.Fin q.
Proof.
  unfold expenseChange.
  destruct (previousMonth cashFlow) as [previous |]; [| exists 0; reflexivity].
  destruct (Js.truthy (expenses previous)) eqn:Hp; simpl; [| exists 0; reflexivity].
  destruct (Js.truthy (optField expenses (latestMonth cashFlow))) eqn:Hl;
    [| exists 0; reflexivity].
  apply percentChange_finite; assumption.
Qed.

Lemma Qabs_nonzero (q : Q) : Qeq_bool q 0 = false -> Qeq_bool (Qabs q) 0 = false.
Proof.
  intros H. destruct (Qeq_bool (Qabs q) 0) eqn:E; [| reflexivity].
  apply Qeq_bool_eq in E.
  assert (Hq : q == 0).
  { apply Qle_antisym.
    - rewrite <- E. apply Qle_Qabs.
    - rewrite <- (Qopp_involutive q).
      setoid_replace 0 with (- 0) by reflexivity.
      apply Qopp_le_compat. rewrite <- E, <- Qabs_opp. apply Qle_Qabs. }
  apply Qeq_eq_bool in Hq. congruence.
Qed.

Lemma burnChange_finite (cashFlow : list CashFlowPoint) :
  exists q, burnChange cashFlow = Js.Fin q.
Proof.
  unfold burnChange.
  destruct (Qeq_bool (previousBurn cashFlow) 0) eqn:E; simpl; [exists 0; reflexivity |].
  rewrite (Qabs_nonzero _ E). eexists. reflexivity.
Qed.

Lemma previousBurn_absent (cashFlow : list CashFlowPoint) :
  previousMonth cashFlow = None -> previousBurn cashFlow = 0.
Proof. unfold previousBurn. intros ->. reflexivity. Qed.

Example analytics_without_data :
  revenueGrowth (cashFlowOf None) = Js.Fin 0 /\
  expenseChange (cashFlowOf None) = Js.Fin 0 /\
  burnChange (cashFlowOf None) = Js.Fin 0 /\
  latestBurn (cashFlowOf None) = 0.
Proof. repeat split. Qed.

(** C2: the burn computed for the dashboard is the latest period's expenses
    minus the latest period's revenue (a missing amount counting as 0); a
    series with no period has burn 0. *)
Theorem latestBurn_is_expenses_minus_revenue :
  (forall (pre : list CashFlowPoint) (b e i : Q),
      latestBurn (pre ++ [{| balance := b; income := Some i; expenses := Some e |}])
      == e - i) /\
  (forall (pre : list CashFlowPoint) (m : CashFlowPoint),
      latestBurn (pre ++ [m]) = Js.or0 (expenses m) - Js.or0 (income m)) /\
  latestBurn [] = 0.
Proof.
  split; [| split].
  - intros pre b e i. unfold latestBurn. rewrite latestMonth_last.
    unfold burnOf. cbn [expenses income].
    rewrite !or0_present. reflexivity.
  - intros pre m. unfold latestBurn. rewrite latestMonth_last. reflexivity.
  - reflexivity.
Qed.

(** C9: on every cash-flow series the three percentages of the Analytics tab
    are finite numbers (no division by zero happens), and each is 0 when the
    previous month is absent or when its divisor (previous income, previous
    expenses, previous burn) is zero or missing. *)
Theorem analytics_percentages_never_divide_by_zero (cashFlow : list CashFlowPoint) :
  (exists g e b,
      revenueGrowth cashFlow = Js.Fin g /\
      expenseChange cashFlow = Js.Fin e /\
      burnChange cashFlow = Js.Fin b) /\
  (previousMonth cashFlow = None ->
      revenueGrowth cashFlow = Js.Fin 0 /\
      expenseChange cashFlow = Js.Fin 0 /\
      burnChange cashFlow = Js.Fin 0) /\
  (forall previous, previousMonth cashFlow = Some previous ->
      Js.truthy (income previous) = false -> revenueGrowth cashFlow = Js.Fin 0) /\
  (forall previous, previousMonth cashFlow = Some previous ->
      Js.truthy (expenses previous) = false -> expenseChange cashFlow = Js.Fin 0) /\
  (previousBurn cashFlow == 0 -> burnChange cashFlow = Js.Fin 0).
Proof.
  split; [| split; [| split; [| split]]].
  - destruct (revenueGrowth_finite cashFlow) as [g Hg].
    destruct (expenseChange_finite cashFlow) as [e He].
    destruct (burnChange_finite cashFlow) as [b Hb].
    exists g, e, b. auto.
  - intros Hnone. unfold revenueGrowth, expenseChange, burnChange.
    rewrite (previousBurn_absent _ Hnone), Hnone. auto.
  - intros previous Hp Hz. unfold revenueGrowth. rewrite Hp, Hz. reflexivity.
  - intros previous Hp Hz. unfold expenseChange. rewrite Hp, Hz. reflexivity.
  - intros Hz. unfold burnChange. apply Qeq_eq_bool in Hz. rewrite Hz. reflexivity.
Qed.

(** Two months, the earlier one with no income, no expenses and so no burn. *)
Definition flat_then_active : list CashFlowPoint :=
  [ {| balance := 1000; income := Some 0; expenses := None |};
    {| balance := 900; income := Some 500; expenses := Some 600 |} ].

Lemma analytics_percentages_witness :
  revenueGrowth flat_then_active = Js.Fin 0 /\
  expenseChange flat_then_active = Js.Fin 0 /\
  burnChange flat_then_active = Js.Fin 0.
Proof.
  pose proof (analytics_percentages_never_divide_by_zero flat_then_active)
    as [_ [_ [Hr [He Hb]]]].
  split; [| split].
  - apply (Hr {| balance := 1000; income := Some 0; expenses := None |}); reflexivity.
  - apply (He {| balance := 1000; income := Some 0; expenses := None |}); reflexivity.
  - apply Hb. reflexivity.
Defined.

End Dashboard.

(* ================================================================== *)
(** ** The network as the handlers see it *)

Module Http.

(** The JSON bodies the sources send. *)
Inductive Payload : Type :=
| NoPayload
| MatchRequest (startup_description : string) (raise_amount : Q) (stage : string)
| ChatRequest (message : string) (context_months : Z)
| EmptyObject.

Record Request : Type := {
  method : string;
  url : string;
  headers : list (string * string);
  payload : Payload
}.

(** What [fetch] resolves with: [response.ok], [response.status] and the
    outcome of [response.json()]. *)
Record Response (B : Type) : Type := {
  ok : bool;
  status : Z;
  json : Js.Completion B
}.
Arguments ok {B} _.
Arguments status {B} _.
Arguments json {B} _.

(** A component's state together with the requests issued so far. *)
Record World (S : Type) : Type := {
  ui : S;
  requests : list Request
}.
Arguments ui {S} _.
Arguments requests {S} _.

(** [await fetch(...)]: the request is recorded and the call settles the way
    the environment decides. *)
Definition fetch {S B : Type} (req : Request) (reply : Js.Completion (Response B))
  : Js.Eff (World S) (Response B) :=
  fun w => (reply, {| ui := ui w; requests := requests w ++ [req] |}).

(** A state setter called with an updater function. *)
Definition setState {S : Type} (f : S -> S) : Js.Eff (World S) unit :=
  Js.modify (fun w => {| ui := f (ui w); requests := requests w |}).

(** The state as the running closure captured it. *)
Definition getState {S : Type} : Js.Eff (World S) S :=
  fun w => (Js.Normal (ui w), w).

(** [import.meta.env.VITE_API_BASE_URL || 'http://localhost:8000'] *)
Definition baseUrl (env : option string) : string :=
  match env with
  | Some s => if String.eqb s "" then "http://localhost:8000" else s
  | None => "http://localhost:8000"
  end.

(** *** [URLSearchParams.prototype.toString] *)

Definition hexDigit (n : N) : ascii :=
  ascii_of_N (if (n <? 10)%N then 48 + n else 55 + n).

(** Bytes the serializer leaves as they are: [*], [-], [.], [_], digits and
    ASCII letters. *)
Definition urlSafe (c : ascii) : bool :=
  let n := N_of_ascii c in
  ((n =? 42) || (n =? 45) || (n =? 46) || (n =? 95)
   || ((48 <=? n) && (n <=? 57))
   || ((65 <=? n) && (n <=? 90))
   || ((97 <=? n) && (n <=? 122)))%N.

Fixpoint urlEncode (s : string) : string :=
  match s with
  | EmptyString => EmptyString
  | String c rest =>
      if urlSafe c then String c (urlEncode rest)
      else if (N_of_ascii c =? 32)%N then String "+" (urlEncode rest)
      else String "%" (String (hexDigit (N_of_ascii c / 16))
                         (String (hexDigit (N_of_ascii c mod 16)) (urlEncode rest)))
  end.

Fixpoint searchParams (params : list (string * string)) : string :=
  match params with
  | [] => ""
  | [(k, v)] => urlEncode k ++ "=" ++ urlEncode v
  | (k, v) :: rest => urlEncode k ++ "=" ++ urlEncode v ++ "&" ++ searchParams rest
  end.

End Http.

(* ================================================================== *)
(** ** Investor service, card, match list and directory page *)

Module Investors.
Import Http.
Import PrimFloat.
Open Scope eff_scope.

Record InvestorMatch : Type := {
  investor_id : Z;
  name : string;
  match_score : Js.double;
  website : string;
  hq : string;
  type : string
}.

Record MatchResults : Type := {
  results_status : string;
  top_investors : list InvestorMatch
}.

(** The body of the directory endpoint's answer: [data.investors] and
    [data.total]. *)
Record DirectoryPageData : Type := {
  investors : list InvestorMatch;
  total : Z
}.

(** *** investorService *)

Definition fetchMatchedInvestors {S : Type} (env : option string)
    (reply : Js.Completion (Response MatchResults))
    (description : string) (raiseAmount : Q) (stage : string)
  : Js.Eff (World S) MatchResults :=
  Js.try_catch
    (response <- fetch {| method := "POST";
                          url := baseUrl env ++ "/api/v1/ai/match/investors";
                          headers := [("Content-Type", "application/json")];
                          payload := MatchRequest description raiseAmount stage |}
                       reply ;;
     if negb (ok response)
     then Js.throw (Js.ErrorObject
                      ("Error fetching matches: " ++ Js.toString (status response)))
     else Js.settle (json response))
    (fun error => Js.throw error).

Definition directoryParams (stage hq sortBy : string) (skip : Z) : list (string * string) :=
  [ ("stage", stage); ("hq", hq); ("sort_by", sortBy);
    ("limit", "50"); ("skip", Js.toString skip) ].

Definition directoryUrl (env : option string) (stage hq sortBy : string) (skip : Z) : string :=
  baseUrl env ++ "/api/v1/ai/match/all?" ++ searchParams (directoryParams stage hq sortBy skip).

Definition fetchFilteredInvestors {S : Type} (env : option string)
    (reply : Js.Completion (Response DirectoryPageData))
    (stage hq sortBy : string) (skip : Z)
  : Js.Eff (World S) DirectoryPageData :=
  response <- fetch {| method := "GET";
                       url := directoryUrl env stage hq sortBy skip;
                       headers := [];
                       payload := NoPayload |}
                    reply ;;
  if negb (ok response)
  then Js.throw (Js.ErrorObject "Failed to fetch filtered investors")
  else
    data <- Js.settle (json response) ;;
    Js.ret {| investors := investors data; total := total data |}.

(** *** InvestorCard *)

(** A child of an element: a number the component computed, or a text. *)
Inductive Child : Type :=
| NumberChild (n : Js.Rounded)
| TextChild (s : string).

(** What a card shows; the badge holds the children of its [span]. *)
Record Card : Type := {
  heading : string;
  subtitle : string;
  badge : list Child;
  profileLink : string
}.

(** [Math.round(investor.match_score * 100)], the product being the
    runtime's binary64 product. *)
Definition matchPercent (investor : InvestorMatch) : Js.Rounded :=
  Js.round (PrimFloat.mul (match_score investor) 100%float).

Definition InvestorCard (investor : InvestorMatch) : Card :=
  {| heading := name investor;
     subtitle := type investor ++ " â€¢ " ++ hq investor;
     badge := [NumberChild (matchPercent investor); TextChild "% Match"];
     profileLink := website investor |}.

(** *** InvestorMatchList *)

Record MatchListState : Type := {
  ml_investors : list InvestorMatch;
  ml_loading : bool
}.

Definition matchList_initial : MatchListState :=
  {| ml_investors := []; ml_loading := true |}.

Definition setInvestors (l : list InvestorMatch) : Js.Eff (World MatchListState) unit :=
  setState (fun s => {| ml_investors := l; ml_loading := ml_loading s |}).

Definition setLoading (b : bool) : Js.Eff (World MatchListState) unit :=
  setState (fun s => {| ml_investors := ml_investors s; ml_loading := b |}).

Definition startupPitch : string :=
  "We are an AI-driven SaaS platform that automates financial reporting and matches startup founders with venture capital investors using machine learning.".

Definition getMatches (env : option string) (reply : Js.Completion (Response MatchResults))
  : Js.Eff (World MatchListState) unit :=
  Js.try_catch_finally
    (setLoading true ;;
     results <- fetchMatchedInvestors env reply startupPitch 250000 "Early Revenue" ;;
     setInvestors (top_investors results))
    (fun _ => Js.ret tt)
    (setLoading false).

Inductive MatchListView : Type :=
| RunningEngine
| CardGrid (cards : list Card).

Definition InvestorMatchList (s : MatchListState) : MatchListView :=
  if ml_loading s then RunningEngine else CardGrid (map InvestorCard (ml_investors s)).

(** *** InvestorDirectoryPage *)

Definition LIMIT : Z := 50.

Record DirectoryState : Type := {
  dir_investors : list InvestorMatch;
  loading : bool;
  loadingMore : bool;
  totalCount : Z;
  stageFilter : string;
  hqFilter : string;
  sortBy : string;
  skip : Z
}.

Definition directory_initial : DirectoryState :=
  {| dir_investors := []; loading := true; loadingMore := false; totalCount := 0;
     stageFilter := "All"; hqFilter := "All"; sortBy := "name_asc"; skip := 0 |}.

Definition withInvestors (f : list InvestorMatch -> list InvestorMatch) (s : DirectoryState) :=
  {| dir_investors := f (dir_investors s); loading := loading s;
     loadingMore := loadingMore s; totalCount := totalCount s;
     stageFilter := stageFilter s; hqFilter := hqFilter s; sortBy := sortBy s;
     skip := skip s |}.

Definition withLoading (b : bool) (s : DirectoryState) :=
  {| dir_investors := dir_investors s; loading := b;
     loadingMore := loadingMore s; totalCount := totalCount s;
     stageFilter := stageFilter s; hqFilter := hqFilter s; sortBy := sortBy s;
     skip := skip s |}.

Definition withLoadingMore (b : bool) (s : DirectoryState) :=
  {| dir_investors := dir_investors s; loading := loading s;
     loadingMore := b; totalCount := totalCount s;
     stageFilter := stageFilter s; hqFilter := hqFilter s; sortBy := sortBy s;
     skip := skip s |}.

Definition withTotalCount (n : Z) (s : DirectoryState) :=
  {| dir_investors := dir_investors s; loading := loading s;
     loadingMore := loadingMore s; totalCount := n;
     stageFilter := stageFilter s; hqFilter := hqFilter s; sortBy := sortBy s;
     skip := skip s |}.

Definition withFilters (stage hq sort : string) (s : DirectoryState) :=
  {| dir_investors := dir_investors s; loading := loading s;
     loadingMore := loadingMore s; totalCount := totalCount s;
     stageFilter := stage; hqFilter := hq; sortBy := sort;
     skip := skip s |}.

Definition withSkip (f : Z -> Z) (s : DirectoryState) :=
  {| dir_investors := dir_investors s; loading := loading s;
     loadingMore := loadingMore s; totalCount := totalCount s;
     stageFilter := stageFilter s; hqFilter := hqFilter s; sortBy := sortBy s;
     skip := f (skip s) |}.

(** The effect that runs when a filter or [skip] has changed. *)
Definition loadInvestors (env : option string)
    (reply : Js.Completion (Response DirectoryPageData))
  : Js.Eff (World DirectoryState) unit :=
  s <- getState ;;
  (if (skip s =? 0)%Z then setState (withLoading true)
   else setState (withLoadingMore true)) ;;
  Js.try_catch_finally
    (data <- fetchFilteredInvestors env reply
               (stageFilter s) (hqFilter s) (sortBy s) (skip s) ;;
     (if (skip s =? 0)%Z
      then setState (withInvestors (fun _ => investors data))
      else setState (withInvestors (fun prev => (prev ++ investors data)%list))) ;;
     setState (withTotalCount (total data)))
    (fun _ => Js.ret tt)
    (setState (withLoading false) ;; setState (withLoadingMore false)).

(** The effect that runs when a filter has changed: [setSkip(0)]. *)
Definition resetSkip : Js.Eff (World DirectoryState) unit :=
  setState (withSkip (fun _ => 0%Z)).

(** The button's [onClick]: [setSkip(prev => prev + LIMIT)]. *)
Definition onLoadMoreClick : Js.Eff (World DirectoryState) unit :=
  setState (withSkip (fun prev => (prev + LIMIT)%Z)).

(** A click on the button and the load its new [skip] triggers. *)
Definition loadMore (env : option string)
    (reply : Js.Completion (Response DirectoryPageData))
  : Js.Eff (World DirectoryState) unit :=
  onLoadMoreClick ;; loadInvestors env reply.

(** The button is shown while [investors.length < totalCount]. *)
Definition showsLoadMore (s : DirectoryState) : bool :=
  negb (loading s) && (Js.length (dir_investors s) <? totalCount s)%Z.

(** A successful answer carrying one page. *)
Definition pageReply (page : list InvestorMatch) (n : Z)
  : Js.Completion (Response DirectoryPageData) :=
  Js.Normal {| ok := true; status := 200;
               json := Js.Normal {| investors := page; total := n |} |}.

(** The states the page can be in: every state setter is one step, and so
    is a completed load. *)
Inductive reachable : World DirectoryState -> Prop :=
| reach_initial :
    reachable {| ui := directory_initial; requests := [] |}
| reach_filter (stage hq sort : string) (w : World DirectoryState) :
    reachable w ->
    reachable (Js.exec (setState (withFilters stage hq sort)) w)
| reach_reset (w : World DirectoryState) :
    reachable w -> reachable (Js.exec resetSkip w)
| reach_click (w : World DirectoryState) :
    reachable w -> reachable (Js.exec onLoadMoreClick w)
| reach_load (env : option string) (reply : Js.Completion (Response DirectoryPageData))
    (w : World DirectoryState) :
    reachable w -> reachable (Js.exec (loadInvestors env reply) w).

(** The cards of the directory grid. *)
Definition directoryCards (s : DirectoryState) : list Card :=
  map InvestorCard (dir_investors s).

(** *** Properties *)

Ltac run_eff :=
  unfold Js.exec, Js.completion, loadMore, onLoadMoreClick, resetSkip, loadInvestors,
    getMatches, setInvestors, setLoading, fetchFilteredInvestors, fetchMatchedInvestors,
    Js.try_catch_finally, Js.try_finally, Js.try_catch, Js.bind, fetch, setState,
    getState, Js.modify, Js.ret, Js.throw, Js.settle;
  cbn [fst snd ui requests ok status json].

Ltac case_reply reply :=
  destruct reply as [[[|] ? [? | ?]] | ?].

(** The text of a badge, where the number's text is the plain one. *)
Definition badgeText (children : list Child) : option string :=
  match children with
  | [NumberChild n; TextChild t] =>
      match Js.numberText n with
      | Some digits => Some (digits ++ t)
      | None => None
      end
  | _ => None
  end.

#[warnings="-inexact-float"]
Definition score (investor_score : Js.double) : InvestorMatch :=
  {| investor_id := 1; name := "A"; match_score := investor_score;
     website := ""; hq := ""; type := "" |}.

#[warnings="-inexact-float"]
Example matchPercent_example :
  badgeText (badge (InvestorCard (score 0.874%float))) = Some "87% Match".
Proof. reflexivity. Qed.

#[warnings="-inexact-float"]
Example matchPercent_half_goes_up :
  matchPercent (score 0.125%float) = Js.Integral 13.
Proof. reflexivity. Qed.

(** 0.285 is received as the double just below it, and so is its product
    with 100. *)
#[warnings="-inexact-float"]
Example matchPercent_below_half :
  badgeText (badge (InvestorCard (score 0.285%float))) = Some "28% Match".
Proof. reflexivity. Qed.

(** The double nearest to 0.995 lies below it, but its product with 100
    rounds to the double 99.5. *)
#[warnings="-inexact-float"]
Example matchPercent_product_rounds_up :
  badgeText (badge (InvestorCard (score 0.995%float))) = Some "100% Match".
Proof. reflexivity. Qed.

Example matchPercent_not_a_number :
  badgeText (badge (InvestorCard (score PrimFloat.nan))) = Some "NaN% Match".
Proof. reflexivity. Qed.

Example directoryUrl_default :
  directoryUrl None "All" "All" "name_asc" 0
  = "http://localhost:8000/api/v1/ai/match/all?stage=All&hq=All&sort_by=name_asc&limit=50&skip=0".
Proof. reflexivity. Qed.

Example directoryUrl_encoded :
  directoryUrl (Some "https://api.stratify.test") "Series A" "New York, NY" "cheque_desc" 100
  = "https://api.stratify.test/api/v1/ai/match/all?stage=Series+A&hq=New+York%2C+NY&sort_by=cheque_desc&limit=50&skip=100".
Proof. reflexivity. Qed.

(** A load issues exactly one request, whatever its outcome. *)
Lemma loadInvestors_requests (env : option string)
    (reply : Js.Completion (Response DirectoryPageData)) (w : World DirectoryState) :
  requests (Js.exec (loadInvestors env reply) w)
  = (requests w ++
      [ {| method := "GET";
           url := directoryUrl env (stageFilter (ui w)) (hqFilter (ui w))
                    (sortBy (ui w)) (skip (ui w));
           headers := [];
           payload := NoPayload |} ])%list.
Proof.
  run_eff. case_reply reply; destruct (skip (ui w) =? 0)%Z; reflexivity.
Qed.

(** A load changes neither [skip] nor the filters. *)
Lemma loadInvestors_skip (env : option string)
    (reply : Js.Completion (Response DirectoryPageData)) (w : World DirectoryState) :
  skip (ui (Js.exec (loadInvestors env reply) w)) = skip (ui w).
Proof.
  run_eff. case_reply reply; destruct (skip (ui w) =? 0)%Z; reflexivity.
Qed.

(** A load never throws and leaves both spinners off. *)
Lemma loadInvestors_settles (env : option string)
    (reply : Js.Completion (Response DirectoryPageData)) (w : World DirectoryState) :
  Js.completion (loadInvestors env reply) w = Js.Normal tt /\
  loading (ui (Js.exec (loadInvestors env reply) w)) = false /\
  loadingMore (ui (Js.exec (loadInvestors env reply) w)) = false.
Proof.
  run_eff. case_reply reply; destruct (skip (ui w) =? 0)%Z; repeat split.
Qed.

Lemma loadInvestors_fresh (env : option string) (page : list InvestorMatch) (n : Z)
    (w : World DirectoryState) :
  skip (ui w) = 0%Z ->
  dir_investors (ui (Js.exec (loadInvestors env (pageReply page n)) w)) = page /\
  totalCount (ui (Js.exec (loadInvestors env (pageReply page n)) w)) = n.
Proof.
  intros H. run_eff. rewrite H. split; reflexivity.
Qed.

Lemma loadInvestors_more (env : option string) (page : list InvestorMatch) (n : Z)
    (w : World DirectoryState) :
  skip (ui w) <> 0%Z ->
  dir_investors (ui (Js.exec (loadInvestors env (pageReply page n)) w))
  = (dir_investors (ui w) ++ page)%list.
Proof.
  intros H. run_eff. apply Z.eqb_neq in H. rewrite H. reflexivity.
Qed.

(** A failed load leaves the list as it was. *)
Lemma loadInvestors_failed (env : option string) (e : Js.Thrown) (w : World DirectoryState) :
  dir_investors (ui (Js.exec (loadInvestors env (Js.Abrupt e)) w)) = dir_investors (ui w).
Proof.
  run_eff. destruct (skip (ui w) =? 0)%Z; reflexivity.
Qed.

Lemma onLoadMoreClick_skip (w : World DirectoryState) :
  skip (ui (Js.exec onLoadMoreClick w)) = (skip (ui w) + 50)%Z /\
  dir_investors (ui (Js.exec onLoadMoreClick w)) = dir_investors (ui w) /\
  requests (Js.exec onLoadMoreClick w) = requests w.
Proof. repeat split. Qed.

(** [skip] is always a non-negative multiple of the page size. *)
Lemma reachable_skip (w : World DirectoryState) :
  reachable w -> exists k : Z, (0 <= k)%Z /\ skip (ui w) = (k * LIMIT)%Z.
Proof.
  induction 1 as [| stage hq sort w _ IH | w _ IH | w _ [k [Hk IH]] | env reply w _ IH].
  - exists 0%Z. split; [lia | reflexivity].
  - exact IH.
  - exists 0%Z. split; [lia | reflexivity].
  - exists (k + 1)%Z. split; [lia |].
    destruct (onLoadMoreClick_skip w) as [E _]. rewrite E, IH. unfold LIMIT. lia.
  - rewrite loadInvestors_skip. exact IH.
Qed.

Lemma reachable_skip_nonneg (w : World DirectoryState) :
  reachable w -> (0 <= skip (ui w))%Z.
Proof.
  intros H. destruct (reachable_skip w H) as [k [Hk E]]. rewrite E. unfold LIMIT. lia.
Qed.

(** C4: every load issues one GET request whose query string carries stage,
    hq, sort_by, limit=50 and the current skip; a fresh search (skip = 0)
    replaces the list with the returned page; a click on "Load More" raises
    skip by exactly 50, and the load it triggers asks for that skip and
    appends the returned page to the end of the list. *)
Theorem directory_requests_and_pagination
    (env : option string) (reply : Js.Completion (Response DirectoryPageData))
    (page : list InvestorMatch) (n : Z) (w : World DirectoryState) :
  reachable w ->
  requests (Js.exec (loadInvestors env reply) w)
    = (requests w ++
        [ {| method := "GET";
             url := baseUrl env ++ "/api/v1/ai/match/all?" ++
                    searchParams [ ("stage", stageFilter (ui w)); ("hq", hqFilter (ui w));
                                   ("sort_by", sortBy (ui w)); ("limit", "50");
                                   ("skip", Js.toString (skip (ui w))) ];
             headers := [];
             payload := NoPayload |} ])%list /\
  (skip (ui w) = 0%Z ->
     dir_investors (ui (Js.exec (loadInvestors env (pageReply page n)) w)) = page) /\
  skip (ui (Js.exec onLoadMoreClick w)) = (skip (ui w) + 50)%Z /\
  dir_investors (ui (Js.exec (loadMore env (pageReply page n)) w))
    = (dir_investors (ui w) ++ page)%list /\
  requests (Js.exec (loadMore env (pageReply page n)) w)
    = (requests w ++
        [ {| method := "GET";
             url := directoryUrl env (stageFilter (ui w)) (hqFilter (ui w))
                      (sortBy (ui w)) (skip (ui w) + 50);
             headers := [];
             payload := NoPayload |} ])%list.
Proof.
  intros Hreach.
  pose proof (reachable_skip_nonneg w Hreach) as Hskip.
  pose proof (reachable_skip_nonneg _ (reach_click w Hreach)) as Hskip'.
  destruct (onLoadMoreClick_skip w) as [Eskip [Einv Ereq]].
  split; [apply loadInvestors_requests |].
  split; [intros H0; apply (loadInvestors_fresh env page n w H0) |].
  split; [exact Eskip |].
  assert (Hrun : forall r, Js.exec (loadMore env r) w
                           = Js.exec (loadInvestors env r) (Js.exec onLoadMoreClick w))
    by reflexivity.
  rewrite Hrun. split.
  - rewrite loadInvestors_more by (rewrite Eskip; lia).
    rewrite Einv. reflexivity.
  - rewrite loadInvestors_requests. rewrite Ereq, Eskip. reflexivity.
Qed.

#[warnings="-inexact-float"]
Definition sample_investor : InvestorMatch :=
  {| investor_id := 7; name := "Northstar Ventures"; match_score := 0.874%float;
     website := "https://northstar.vc"; hq := "Berlin"; type := "VC" |}.

Definition directory_start : World DirectoryState :=
  {| ui := directory_initial; requests := [] |}.

Lemma directory_requests_and_pagination_witness :
  map url (requests (Js.exec (loadInvestors None (pageReply [sample_investor] 120))
                       directory_start))
    = [ "http://localhost:8000/api/v1/ai/match/all?stage=All&hq=All&sort_by=name_asc&limit=50&skip=0" ] /\
  dir_investors (ui (Js.exec (loadInvestors None (pageReply [sample_investor] 120))
                       directory_start))
    = [sample_investor] /\
  skip (ui (Js.exec onLoadMoreClick directory_start)) = 50%Z.
Proof.
  destruct (directory_requests_and_pagination None (pageReply [sample_investor] 120)
              [sample_investor] 120 directory_start reach_initial)
    as [Hreq [Hfresh [Hclick _]]].
  split; [rewrite Hreq; reflexivity |].
  split; [apply Hfresh; reflexivity | exact Hclick].
Defined.

End Investors.

(* ================================================================== *)
(** ** The auth store as its users see it *)

Module AuthStore.

Record User : Type := {
  id : string;
  email : string;
  fullName : string;
  onboardingCompleted : bool
}.

(** The fields the sources read from [useAuthStore]. *)
Record AuthState : Type := {
  user : option User;
  token : option string;
  isAuthenticated : bool
}.

End AuthStore.

(* ================================================================== *)
(** ** ProtectedRoute, in its two versions *)

Module Routing.
Import AuthStore.

(** What a route guard renders. *)
Inductive Element : Type :=
| Outlet
| Navigate (to : string) (replace : bool).

(** components/shared/ProtectedRoute.tsx *)
Module Shared.
Definition ProtectedRoute (store : AuthState) : Element :=
  if negb (isAuthenticated store)
  then Navigate "/login" true
  else Outlet.
End Shared.

(** The version that skips authentication and allows direct access. *)
Module Unguarded.
Definition ProtectedRoute (store : AuthState) : Element := Outlet.
End Unguarded.

Definition signed_out : AuthState :=
  {| user := None; token := None; isAuthenticated := false |}.

(** C8, as stated, fails: for a signed-out visitor the shared guard renders a
    redirect to /login while the other version renders the child routes. *)
Lemma ProtectedRoute_versions_differ :
  Shared.ProtectedRoute signed_out = Navigate "/login" true /\
  Unguarded.ProtectedRoute signed_out = Outlet /\
  Shared.ProtectedRoute signed_out <> Unguarded.ProtectedRoute signed_out.
Proof.
  split; [reflexivity |]. split; [reflexivity |]. discriminate.
Qed.

(** C8, amended: the two versions render the same result exactly for the
    authenticated states, where both render the child routes; for every
    other state the shared guard redirects to /login, replacing the history
    entry, and the other version still renders the child routes. *)
Theorem ProtectedRoute_versions_agree_iff_authenticated (store : AuthState) :
  (Shared.ProtectedRoute store = Unguarded.ProtectedRoute store
     <-> isAuthenticated store = true) /\
  (isAuthenticated store = true ->
     Shared.ProtectedRoute store = Outlet /\ Unguarded.ProtectedRoute store = Outlet) /\
  (isAuthenticated store = false ->
     Shared.ProtectedRoute store = Navigate "/login" true /\
     Unguarded.ProtectedRoute store = Outlet).
Proof.
  unfold Shared.ProtectedRoute, Unguarded.ProtectedRoute.
  destruct (isAuthenticated store); simpl.
  - split; [tauto |]. split; [auto | discriminate].
  - split; [split; discriminate |]. split; [discriminate | auto].
Qed.

End Routing.

(* ================================================================== *)
(** ** cfo.store: the chat and report actions *)

Module CfoStore.
Import AuthStore.
Open Scope eff_scope.

Inductive Role : Type := user_role | ai_role.

Record ChatMessage : Type := {
  role : Role;
  text : string
}.

Record CfoState : Type := {
  chatHistory : list ChatMessage;
  monthlyReport : option string;
  isProcessingChat : bool;
  isGeneratingReport : bool
}.

(** The store, the auth store it reads the token from, and the requests
    sent through axios. *)
Record World : Type := {
  cfo : CfoState;
  auth : AuthState;
  posts : list Http.Request
}.

Definition initial : CfoState :=
  {| chatHistory :=
       [ {| role := ai_role;
            text := "Hello. I have loaded your financial ledgers. What metrics would you like to review?" |} ];
     monthlyReport := None;
     isProcessingChat := false;
     isGeneratingReport := false |}.

(** zustand's [set] with an updater. *)
Definition set (f : CfoState -> CfoState) : Js.Eff World unit :=
  Js.modify (fun w => {| cfo := f (cfo w); auth := auth w; posts := posts w |}).

(** [useAuthStore.getState().token] *)
Definition getToken : Js.Eff World (option string) :=
  fun w => (Js.Normal (token (auth w)), w).

(** The template literal [`Bearer ${token}`]. *)
Definition bearer (tok : option string) : string :=
  "Bearer " ++ match tok with Some t => t | None => "null" end.

(** [await axios.post(url, data, config)]: the request is recorded; the call
    resolves with the response data or rejects, as the environment decides. *)
Definition axios_post {B : Type} (url : string) (data : Http.Payload)
    (hdrs : list (string * string)) (reply : Js.Completion B) : Js.Eff World B :=
  fun w =>
    (reply,
     {| cfo := cfo w; auth := auth w;
        posts := (posts w ++ [ {| Http.method := "POST"; Http.url := url;
                                  Http.headers := hdrs; Http.payload := data |} ])%list |}).

Definition appendMessage (m : ChatMessage) (s : CfoState) : CfoState :=
  {| chatHistory := (chatHistory s ++ [m])%list;
     monthlyReport := monthlyReport s;
     isProcessingChat := isProcessingChat s;
     isGeneratingReport := isGeneratingReport s |}.

Definition fallbackText : string :=
  "Error connecting to the financial engine. Please try again.".

(** [reply] is what the chat endpoint answers: [res.data.response], or a
    rejection. *)
Definition sendUserMessage (reply : Js.Completion string) (text : string)
  : Js.Eff World unit :=
  set (fun state =>
         {| chatHistory := (chatHistory state ++ [ {| role := user_role; text := text |} ])%list;
            monthlyReport := monthlyReport state;
            isProcessingChat := true;
            isGeneratingReport := isGeneratingReport state |}) ;;
  Js.try_catch_finally
    (tok <- getToken ;;
     res <- axios_post "/api/v1/ai/chat" (Http.ChatRequest text 12)
              [("Authorization", bearer tok)] reply ;;
     set (appendMessage {| role := ai_role; text := res |}))
    (fun err => set (appendMessage {| role := ai_role; text := fallbackText |}))
    (set (fun state =>
            {| chatHistory := chatHistory state;
               monthlyReport := monthlyReport state;
               isProcessingChat := false;
               isGeneratingReport := isGeneratingReport state |})).

Definition setReport (r : option string) (s : CfoState) : CfoState :=
  {| chatHistory := chatHistory s; monthlyReport := r;
     isProcessingChat := isProcessingChat s;
     isGeneratingReport := isGeneratingReport s |}.

Definition setGenerating (b : bool) (s : CfoState) : CfoState :=
  {| chatHistory := chatHistory s; monthlyReport := monthlyReport s;
     isProcessingChat := isProcessingChat s;
     isGeneratingReport := b |}.

Definition fetchExecutiveReport (reply : Js.Completion string) : Js.Eff World unit :=
  set (setGenerating true) ;;
  Js.try_catch_finally
    (tok <- getToken ;;
     res <- axios_post "/api/v1/ai/report" Http.EmptyObject
              [("Authorization", bearer tok)] reply ;;
     set (setReport (Some res)))
    (fun err =>
       set (setReport
              (Some "Failed to compile the executive summary. Ensure you have financial data imported.")))
    (set (setGenerating false)).

Definition resetChatSession : Js.Eff World unit :=
  set (fun state =>
         {| chatHistory := [ {| role := ai_role; text := "Chat reset. How else can I assist?" |} ];
            monthlyReport := monthlyReport state;
            isProcessingChat := isProcessingChat state;
            isGeneratingReport := isGeneratingReport state |}).

(** The text of the reply entry: the backend's answer, or the fallback. *)
Definition replyText (reply : Js.Completion string) : string :=
  match reply with
  | Js.Normal response => response
  | Js.Abrupt _ => fallbackText
  end.

(** *** Properties *)

(** C6: sendUserMessage appends exactly two entries to the history, the
    user's message and then the backend's answer or, when the request fails,
    the fixed fallback text; afterwards isProcessingChat is false, the action
    has completed without throwing, and exactly one request was sent (no
    retry). *)
Theorem sendUserMessage_appends_two_entries
    (reply : Js.Completion string) (message : string) (w : World) :
  chatHistory (cfo (Js.exec (sendUserMessage reply message) w))
    = (chatHistory (cfo w) ++
        [ {| role := user_role; text := message |};
          {| role := ai_role; text := replyText reply |} ])%list /\
  (forall e, replyText (Js.Abrupt e)
             = "Error connecting to the financial engine. Please try again.") /\
  isProcessingChat (cfo (Js.exec (sendUserMessage reply message) w)) = false /\
  Js.completion (sendUserMessage reply message) w = Js.Normal tt /\
  posts (Js.exec (sendUserMessage reply message) w)
    = (posts w ++
        [ {| Http.method := "POST"; Http.url := "/api/v1/ai/chat";
             Http.headers := [("Authorization", bearer (token (auth w)))];
             Http.payload := Http.ChatRequest message 12 |} ])%list.
Proof.
  unfold Js.exec, Js.completion, sendUserMessage, Js.try_catch_finally, Js.try_finally,
    Js.try_catch, Js.bind, set, getToken, axios_post, Js.modify.
  destruct reply as [response | e]; cbn.
  - rewrite <- app_assoc. repeat split.
  - rewrite <- app_assoc. repeat split.
Qed.

End CfoStore.

(* ================================================================== *)
(** ** LoginPage and RegisterPage *)

Module AuthPages.
Import AuthStore.
Open Scope eff_scope.

(** *** The zod schemas *)

(** A check chained on [z.string()], with its message. *)
Inductive Check : Type :=
| min (n : nat) (message : string)
| email (message : string).

(** The raw values of the registration form's three inputs. *)
Record RegisterFormData : Type := {
  rf_fullName : string;
  rf_email : string;
  rf_password : string
}.

Record LoginFormData : Type := {
  lf_email : string;
  lf_password : string
}.

(** A [z.object] over a form: each field with its accessor and checks. *)
Definition ObjectSchema (D : Type) : Type := list (string * (D -> string) * list Check).

Definition registerSchema : ObjectSchema RegisterFormData :=
  [ ("fullName", rf_fullName, [min 2 "Name must be at least 2 characters"]);
    ("email", rf_email, [email "Invalid email address"]);
    ("password", rf_password, [min 8 "Password must be at least 8 characters"]) ].

Definition loginSchema : ObjectSchema LoginFormData :=
  [ ("email", lf_email, [email "Invalid email address"]);
    ("password", lf_password, [min 1 "Password is required"]) ].

(** What the pages keep in React state and in [formState]. *)
Record PageState : Type := {
  isSubmitting : bool;
  errorMessage : option string;
  errors : list (string * string)
}.

Inductive ServiceCall : Type :=
| LoginCall (email password : string)
| RegisterCall (fullName email password : string).

(** The page, the auth store with the calls made to its [login] action, the
    router's navigations and the calls made to auth.service. *)
Record World : Type := {
  page : PageState;
  auth : AuthState;
  loginUserCalls : list (User * string);
  navigations : list string;
  serviceCalls : list ServiceCall
}.

Definition setPage (f : PageState -> PageState) : Js.Eff World unit :=
  Js.modify (fun w =>
    {| page := f (page w); auth := auth w; loginUserCalls := loginUserCalls w;
       navigations := navigations w; serviceCalls := serviceCalls w |}).

Definition setIsSubmitting (b : bool) : Js.Eff World unit :=
  setPage (fun p => {| isSubmitting := b; errorMessage := errorMessage p;
                       errors := errors p |}).

Definition setErrorMessage (m : option string) : Js.Eff World unit :=
  setPage (fun p => {| isSubmitting := isSubmitting p; errorMessage := m;
                       errors := errors p |}).

Definition setErrors (errs : list (string * string)) : Js.Eff World unit :=
  setPage (fun p => {| isSubmitting := isSubmitting p; errorMessage := errorMessage p;
                       errors := errs |}).

(** [navigate(path)] *)
Definition navigate (path : string) : Js.Eff World unit :=
  Js.modify (fun w =>
    {| page := page w; auth := auth w; loginUserCalls := loginUserCalls w;
       navigations := (navigations w ++ [path])%list; serviceCalls := serviceCalls w |}).

(** An awaited call to auth.service: recorded, and settled by the
    environment. *)
Definition callService (call : ServiceCall) (reply : Js.Completion (User * string))
  : Js.Eff World (User * string) :=
  fun w =>
    (reply,
     {| page := page w; auth := auth w; loginUserCalls := loginUserCalls w;
        navigations := navigations w;
        serviceCalls := (serviceCalls w ++ [call])%list |}).

(** [error.message || fallback] *)
Definition messageOr (message fallback : string) : string :=
  if String.eqb message "" then fallback else message.

(** *** The length of a text *)

Lemma lengthFrom_byte (pending : nat) (n : N) (rest : string) :
  (n < 256)%N ->
  Js.lengthFrom pending (String (ascii_of_N n) rest)
  = if ((128 <=? n) && (n <? 192))%N then
      match pending with
      | O => S (Js.lengthFrom 0 rest)
      | S p => Js.lengthFrom p rest
      end
    else if ((240 <=? n) && (n <? 248))%N then S (S (Js.lengthFrom 3 rest))
    else if ((224 <=? n) && (n <? 240))%N then S (Js.lengthFrom 2 rest)
    else if ((192 <=? n) && (n <? 224))%N then S (Js.lengthFrom 1 rest)
    else S (Js.lengthFrom 0 rest).
Proof.
  intros H. cbn [Js.lengthFrom]. rewrite N_ascii_embedding by exact H. reflexivity.
Qed.

Ltac decide_byte :=
  repeat match goal with
  | |- context [(?a <=? ?b)%N] => destruct (N.leb_spec a b); try (exfalso; lia)
  | |- context [(?a <? ?b)%N] => destruct (N.ltb_spec a b); try (exfalso; lia)
  end; cbn [andb].

Lemma lengthFrom_continuation (n : N) (rest : string) (pending : nat) :
  (n < 64)%N ->
  Js.lengthFrom (S pending) (String (ascii_of_N (128 + n)) rest)
  = Js.lengthFrom pending rest.
Proof.
  intros H. rewrite lengthFrom_byte by lia. decide_byte. reflexivity.
Qed.

(** A code point counts as its UTF-16 code units, whatever follows it. *)
Lemma lengthFrom_utf8 (cp : N) (rest : string) :
  (cp < 1114112)%N ->
  Js.lengthFrom 0 (Js.utf8 cp ++ rest) = (Js.codeUnits cp + Js.lengthFrom 0 rest)%nat.
Proof.
  intros Hcp. unfold Js.utf8, Js.codeUnits.
  assert (Hm : (cp mod 64 < 64)%N) by (apply N.mod_lt; lia).
  assert (Hm2 : ((cp / 64) mod 64 < 64)%N) by (apply N.mod_lt; lia).
  assert (Hm3 : ((cp / 4096) mod 64 < 64)%N) by (apply N.mod_lt; lia).
  destruct (N.ltb_spec cp 128) as [H1 | H1];
    [| destruct (N.ltb_spec cp 2048) as [H2 | H2];
       [| destruct (N.ltb_spec cp 65536) as [H3 | H3]]];
    cbn [append].
  - rewrite lengthFrom_byte by lia. decide_byte. reflexivity.
  - assert (Hq : (cp / 64 < 32)%N) by (apply N.Div0.div_lt_upper_bound; lia).
    generalize dependent (cp / 64)%N. intros q Hm2 Hq.
    rewrite lengthFrom_byte by lia. decide_byte.
    rewrite lengthFrom_continuation by exact Hm. reflexivity.
  - assert (Hq : (cp / 4096 < 16)%N) by (apply N.Div0.div_lt_upper_bound; lia).
    generalize dependent (cp / 4096)%N. intros q Hm3 Hq.
    rewrite lengthFrom_byte by lia. decide_byte.
    rewrite !lengthFrom_continuation by assumption. reflexivity.
  - assert (Hq : (cp / 262144 < 5)%N) by (apply N.Div0.div_lt_upper_bound; lia).
    generalize dependent (cp / 262144)%N. intros q Hq.
    rewrite lengthFrom_byte by lia. decide_byte.
    rewrite !lengthFrom_continuation by assumption. reflexivity.
Qed.

(** On the UTF-8 bytes of a text, [Js.stringLength] is the text's number of
    UTF-16 code units. *)
Lemma stringLength_encode (cps : list N) :
  Forall (fun cp => (cp < 1114112)%N) cps ->
  Js.stringLength (Js.encode cps) = list_sum (map Js.codeUnits cps).
Proof.
  unfold Js.stringLength. induction 1 as [| cp rest Hcp _ IH].
  - reflexivity.
  - cbn [Js.encode map list_sum]. rewrite lengthFrom_utf8 by exact Hcp.
    rewrite IH. reflexivity.
Qed.

(** A single character of the basic plane has length 1, however many bytes
    encode it. *)
Lemma stringLength_one_character (cp : N) :
  (cp < 65536)%N -> Js.stringLength (Js.utf8 cp) = 1%nat.
Proof.
  intros H.
  assert (E : Js.utf8 cp = Js.encode [cp]).
  { cbn [Js.encode]. unfold Js.utf8.
    destruct (cp <? 128)%N; [reflexivity |].
    destruct (cp <? 2048)%N; [reflexivity |].
    destruct (cp <? 65536)%N; reflexivity. }
  rewrite E, stringLength_encode by (constructor; [lia | constructor]).
  cbn [map list_sum]. unfold Js.codeUnits.
  apply N.ltb_lt in H. rewrite H. reflexivity.
Qed.

Section Pages.

(** zod's pattern for [z.string().email()]. *)
Variable isEmail : string -> bool.

(** The auth store's [login] action. *)
Variable storeLogin : User -> string -> AuthState -> AuthState.

Definition loginUser (u : User) (tok : string) : Js.Eff World unit :=
  Js.modify (fun w =>
    {| page := page w; auth := storeLogin u tok (auth w);
       loginUserCalls := (loginUserCalls w ++ [(u, tok)])%list;
       navigations := navigations w; serviceCalls := serviceCalls w |}).

(** The message of a failed check, if it fails; [min] compares the text's
    [length]. *)
Definition runCheck (c : Check) (value : string) : option string :=
  match c with
  | min n message => if (Js.stringLength value <? n)%nat then Some message else None
  | email message => if isEmail value then None else Some message
  end.

(** The first issue of a field, which is the one the resolver reports. *)
Fixpoint firstIssue (checks : list Check) (value : string) : option string :=
  match checks with
  | [] => None
  | c :: rest =>
      match runCheck c value with
      | Some message => Some message
      | None => firstIssue rest value
      end
  end.

(** [zodResolver(schema)]: the fields that fail, each with its message. *)
Fixpoint zodResolver {D : Type} (schema : ObjectSchema D) (values : D) : list (string * string) :=
  match schema with
  | [] => []
  | (field, read, checks) :: rest =>
      match firstIssue checks (read values) with
      | Some message => (field, message) :: zodResolver rest values
      | None => zodResolver rest values
      end
  end.

(** react-hook-form's [handleSubmit(onValid)]: the resolver runs first; with
    no error the handler is called with the values, otherwise only
    [formState.errors] is set. *)
Definition handleSubmit {D : Type} (schema : ObjectSchema D)
    (onValid : D -> Js.Eff World unit) (values : D) : Js.Eff World unit :=
  match zodResolver schema values with
  | [] => setErrors [] ;; onValid values
  | errs => setErrors errs
  end.

(** [errors.<field>?.message] *)
Fixpoint fieldError (errs : list (string * string)) (field : string) : option string :=
  match errs with
  | [] => None
  | (f, message) :: rest => if String.eqb f field then Some message else fieldError rest field
  end.

(** **** LoginPage *)

Definition LoginPage_onSubmit (reply : Js.Completion (User * string)) (data : LoginFormData)
  : Js.Eff World unit :=
  setIsSubmitting true ;;
  setErrorMessage None ;;
  Js.try_catch_finally
    (r <- callService (LoginCall (lf_email data) (lf_password data)) reply ;;
     loginUser (fst r) (snd r) ;;
     if onboardingCompleted (fst r)
     then navigate "/dashboard"
     else navigate "/onboarding")
    (fun error =>
       match error with
       | Js.ErrorObject message =>
           setErrorMessage
             (Some (messageOr message "Login failed. Please check your credentials."))
       | Js.OtherValue => setErrorMessage (Some "Login failed. Please try again.")
       end)
    (setIsSubmitting false).

(** **** RegisterPage *)

Definition RegisterPage_onSubmit (reply : Js.Completion (User * string))
    (data : RegisterFormData) : Js.Eff World unit :=
  setIsSubmitting true ;;
  setErrorMessage None ;;
  Js.try_catch_finally
    (r <- callService (RegisterCall (rf_fullName data) (rf_email data) (rf_password data))
            reply ;;
     loginUser (fst r) (snd r) ;;
     navigate "/onboarding")
    (fun error =>
       match error with
       | Js.ErrorObject message =>
           setErrorMessage (Some (messageOr message "Registration failed. Please try again."))
       | Js.OtherValue => setErrorMessage (Some "Registration failed. Please try again.")
       end)
    (setIsSubmitting false).

(** The form's [onSubmit={handleSubmit(onSubmit)}]. *)
Definition RegisterPage_submit (reply : Js.Completion (User * string))
    (values : RegisterFormData) : Js.Eff World unit :=
  handleSubmit registerSchema (RegisterPage_onSubmit reply) values.

(** The messages rendered under the three inputs, top to bottom. *)
Definition RegisterPage_fieldMessages (p : PageState) : list (option string) :=
  [ fieldError (errors p) "fullName";
    fieldError (errors p) "email";
    fieldError (errors p) "password" ].

(** The schema in the words of its description: a name of at least 2
    characters, a well-formed email address, a password of at least 8,
    a character being a UTF-16 code unit. *)
Definition satisfiesRegisterSchema (values : RegisterFormData) : bool :=
  (2 <=? Js.stringLength (rf_fullName values))%nat
  && isEmail (rf_email values)
  && (8 <=? Js.stringLength (rf_password values))%nat.

(** **** Properties *)

Ltac run_page :=
  unfold Js.exec, Js.completion, LoginPage_onSubmit, RegisterPage_onSubmit,
    Js.try_catch_finally, Js.try_finally, Js.try_catch, Js.bind, callService, loginUser,
    navigate, setIsSubmitting, setErrorMessage, setErrors, setPage, Js.modify;
  cbn [fst snd page auth loginUserCalls navigations serviceCalls
       isSubmitting errorMessage errors].

Lemma messageOr_nonempty (message fallback : string) :
  fallback <> "" -> messageOr message fallback <> "".
Proof.
  intros Hf. unfold messageOr.
  destruct (String.eqb_spec message ""); assumption.
Qed.

(** The banner text after a failed call: the error's own message when it has
    one, a fixed text otherwise. *)
Definition loginFailureText (e : Js.Thrown) : string :=
  match e with
  | Js.ErrorObject message => messageOr message "Login failed. Please check your credentials."
  | Js.OtherValue => "Login failed. Please try again."
  end.

Lemma loginFailureText_nonempty (e : Js.Thrown) : loginFailureText e <> "".
Proof.
  destruct e as [message |]; simpl; [| discriminate].
  apply messageOr_nonempty. discriminate.
Qed.

(** C7: when the authentication call throws, the page shows a non-empty
    error message, navigates nowhere and leaves the auth store alone
    (loginUser is not called); when it succeeds, loginUser is called with the
    returned user and token and the page navigates to /dashboard if
    user.onboardingCompleted is true and to /onboarding otherwise. *)
Theorem login_submission_outcomes :
  (forall (e : Js.Thrown) (data : LoginFormData) (w : World),
      let w' := Js.exec (LoginPage_onSubmit (Js.Abrupt e) data) w in
      errorMessage (page w') = Some (loginFailureText e) /\
      errorMessage (page w') <> None /\
      loginFailureText e <> "" /\
      navigations w' = navigations w /\
      auth w' = auth w /\
      loginUserCalls w' = loginUserCalls w /\
      isSubmitting (page w') = false) /\
  (forall (u : User) (tok : string) (data : LoginFormData) (w : World),
      let w' := Js.exec (LoginPage_onSubmit (Js.Normal (u, tok)) data) w in
      loginUserCalls w' = (loginUserCalls w ++ [(u, tok)])%list /\
      auth w' = storeLogin u tok (auth w) /\
      navigations w'
        = (navigations w ++
            [if onboardingCompleted u then "/dashboard" else "/onboarding"])%list /\
      errorMessage (page w') = None /\
      isSubmitting (page w') = false).
Proof.
  split.
  - intros e data w w'. subst w'. run_page.
    pose proof (loginFailureText_nonempty e) as Hne.
    destruct e as [message |]; cbn; repeat split; try discriminate; exact Hne.
  - intros u tok data w w'. subst w'. run_page.
    destruct (onboardingCompleted u); cbn; repeat split.
Qed.

Lemma ltb_is_not_leb (n m : nat) : (n <? m)%nat = negb (m <=? n)%nat.
Proof. apply Nat.ltb_antisym. Qed.

(** What a submission of the registration form does, by the three
    checks. *)
Lemma RegisterPage_submit_outcome
    (reply : Js.Completion (User * string)) (values : RegisterFormData) (w : World) :
  serviceCalls (Js.exec (RegisterPage_submit reply values) w)
    = (if satisfiesRegisterSchema values
       then (serviceCalls w ++
              [RegisterCall (rf_fullName values) (rf_email values) (rf_password values)])%list
       else serviceCalls w) /\
  RegisterPage_fieldMessages (page (Js.exec (RegisterPage_submit reply values) w))
    = [ if (Js.stringLength (rf_fullName values) <? 2)%nat
        then Some "Name must be at least 2 characters" else None;
        if isEmail (rf_email values) then None else Some "Invalid email address";
        if (Js.stringLength (rf_password values) <? 8)%nat
        then Some "Password must be at least 8 characters" else None ].
Proof.
  unfold RegisterPage_submit, handleSubmit, satisfiesRegisterSchema,
    RegisterPage_fieldMessages.
  cbn [zodResolver registerSchema firstIssue runCheck].
  rewrite !ltb_is_not_leb.
  destruct (2 <=? Js.stringLength (rf_fullName values))%nat;
    destruct (isEmail (rf_email values));
    destruct (8 <=? Js.stringLength (rf_password values))%nat;
    cbn [negb andb];
    try (split; reflexivity).
  run_page.
  destruct reply as [[u tok] | [message |]]; cbn; split; reflexivity.
Qed.

(** C10: submitting the registration form calls the register service exactly
    when the values satisfy the schema (a name of at least 2 characters, a
    well-formed email address, a password of at least 8 characters), and
    then once, with those values; otherwise no call is made and each failing
    field shows its message.  A character is a UTF-16 code unit, as in the
    text's [length]: a name that is one character of the basic plane is
    refused, however many bytes encode it. *)
Theorem register_called_only_for_valid_input
    (reply : Js.Completion (User * string)) (values : RegisterFormData) (w : World) :
  serviceCalls (Js.exec (RegisterPage_submit reply values) w)
    = (if satisfiesRegisterSchema values
       then (serviceCalls w ++
              [RegisterCall (rf_fullName values) (rf_email values) (rf_password values)])%list
       else serviceCalls w) /\
  RegisterPage_fieldMessages (page (Js.exec (RegisterPage_submit reply values) w))
    = [ if (Js.stringLength (rf_fullName values) <? 2)%nat
        then Some "Name must be at least 2 characters" else None;
        if isEmail (rf_email values) then None else Some "Invalid email address";
        if (Js.stringLength (rf_password values) <? 8)%nat
        then Some "Password must be at least 8 characters" else None ] /\
  (satisfiesRegisterSchema values = false ->
     RegisterPage_fieldMessages (page (Js.exec (RegisterPage_submit reply values) w))
       <> [None; None; None]) /\
  (forall (cp : N) (address password : string),
     (cp < 65536)%N ->
     let one := {| rf_fullName := Js.utf8 cp; rf_email := address;
                   rf_password := password |} in
     serviceCalls (Js.exec (RegisterPage_submit reply one) w) = serviceCalls w /\
     hd None (RegisterPage_fieldMessages (page (Js.exec (RegisterPage_submit reply one) w)))
       = Some "Name must be at least 2 characters").
Proof.
  destruct (RegisterPage_submit_outcome reply values w) as [Hcalls Hshown].
  split; [exact Hcalls |]. split; [exact Hshown |]. split.
  - rewrite Hshown. unfold satisfiesRegisterSchema. rewrite !ltb_is_not_leb.
    destruct (2 <=? Js.stringLength (rf_fullName values))%nat;
      destruct (isEmail (rf_email values));
      destruct (8 <=? Js.stringLength (rf_password values))%nat;
      cbn [negb andb]; intros H; discriminate.
  - intros cp address password Hcp one.
    destruct (RegisterPage_submit_outcome reply one w) as [Hcalls1 Hshown1].
    rewrite Hcalls1, Hshown1. unfold satisfiesRegisterSchema.
    cbn [one rf_fullName hd].
    rewrite (stringLength_one_character cp Hcp). split; reflexivity.
Qed.

End Pages.

(** A returning founder who finished onboarding. *)
Definition jane : User :=
  {| AuthStore.id := "u1"; AuthStore.email := "jane@startup.com";
     AuthStore.fullName := "Jane Founder"; AuthStore.onboardingCompleted := true |}.

Definition fresh_world : World :=
  {| page := {| isSubmitting := false; errorMessage := None; errors := [] |};
     auth := {| user := None; token := None; isAuthenticated := false |};
     loginUserCalls := []; navigations := []; serviceCalls := [] |}.

(** A stand-in for the email pattern: some [@] occurs in the text. *)
Fixpoint hasAt (s : string) : bool :=
  match s with
  | EmptyString => false
  | String c rest => Ascii.eqb c "@" || hasAt rest
  end.

Definition signIn (u : User) (tok : string) (_ : AuthState) : AuthState :=
  {| user := Some u; token := Some tok; isAuthenticated := true |}.

Example register_short_password :
  let w' := Js.exec (RegisterPage_submit hasAt signIn (Js.Normal (jane, "t0k"))
                       {| rf_fullName := "Jane Founder"; rf_email := "jane@startup.com";
                          rf_password := "short" |})
              fresh_world in
  serviceCalls w' = [] /\
  RegisterPage_fieldMessages (page w')
    = [None; None; Some "Password must be at least 8 characters"].
Proof. split; reflexivity. Qed.

Example register_valid_input :
  let w' := Js.exec (RegisterPage_submit hasAt signIn (Js.Normal (jane, "t0k"))
                       {| rf_fullName := "Jane Founder"; rf_email := "jane@startup.com";
                          rf_password := "MySecure123!" |})
              fresh_world in
  serviceCalls w' = [RegisterCall "Jane Founder" "jane@startup.com" "MySecure123!"] /\
  navigations w' = ["/onboarding"] /\
  isAuthenticated (auth w') = true.
Proof. repeat split. Qed.

(** One accented letter is one character in two bytes: the name is too
    short. *)
Example register_one_letter_name :
  let w' := Js.exec (RegisterPage_submit hasAt signIn (Js.Normal (jane, "t0k"))
                       {| rf_fullName := "é"; rf_email := "jane@startup.com";
                          rf_password := "MySecure123!" |})
              fresh_world in
  String.length "é" = 2%nat /\
  serviceCalls w' = [] /\
  RegisterPage_fieldMessages (page w')
    = [Some "Name must be at least 2 characters"; None; None].
Proof. repeat split. Qed.

(** Seven characters in nine bytes do not make a password. *)
Example register_accented_password :
  let w' := Js.exec (RegisterPage_submit hasAt signIn (Js.Normal (jane, "t0k"))
                       {| rf_fullName := "Jane Founder"; rf_email := "jane@startup.com";
                          rf_password := "pässwör" |})
              fresh_world in
  serviceCalls w' = [] /\
  RegisterPage_fieldMessages (page w')
    = [None; None; Some "Password must be at least 8 characters"].
Proof. repeat split. Qed.

(** A character outside the basic plane is a surrogate pair, of length 2. *)
Example register_surrogate_pair_name :
  let w' := Js.exec (RegisterPage_submit hasAt signIn (Js.Normal (jane, "t0k"))
                       {| rf_fullName := "😀"; rf_email := "jane@startup.com";
                          rf_password := "MySecure123!" |})
              fresh_world in
  Js.encode [128512%N] = "😀" /\
  serviceCalls w' = [RegisterCall "😀" "jane@startup.com" "MySecure123!"].
Proof. repeat split. Qed.

Example login_wrong_credentials :
  let w' := Js.exec (LoginPage_onSubmit signIn (Js.Abrupt (Js.ErrorObject ""))
                       {| lf_email := "jane@startup.com"; lf_password := "nope" |})
              fresh_world in
  errorMessage (page w') = Some "Login failed. Please check your credentials." /\
  navigations w' = [] /\ auth w' = auth fresh_world.
Proof. repeat split. Qed.

End AuthPages.

(* ================================================================== *)
(** ** Investor service and pages: outcomes, failures and paging *)

Module InvestorFlows.
Import Http Investors.
Import PrimFloat.
Open Scope eff_scope.

(** Occurrences of a character in a text. *)
Fixpoint countChar (c : ascii) (s : string) : nat :=
  match s with
  | EmptyString => 0
  | String d rest => (if Ascii.eqb c d then 1 else 0) + countChar c rest
  end.

(** The page a reply carries, if it is a successful answer whose body
    parses. *)
Definition replyPage (reply : Js.Completion (Response DirectoryPageData))
  : option DirectoryPageData :=
  match reply with
  | Js.Normal response =>
      if ok response
      then match json response with
           | Js.Normal data => Some data
           | Js.Abrupt _ => None
           end
      else None
  | Js.Abrupt _ => None
  end.

(** What [fetchFilteredInvestors] throws for a reply without a page. *)
Definition directoryFailure (reply : Js.Completion (Response DirectoryPageData))
  : Js.Thrown :=
  match reply with
  | Js.Normal response =>
      if ok response
      then match json response with
           | Js.Normal _ => Js.OtherValue
           | Js.Abrupt e => e
           end
      else Js.ErrorObject "Failed to fetch filtered investors"
  | Js.Abrupt e => e
  end.

(** What [fetchMatchedInvestors] settles with. *)
Definition matchOutcome (reply : Js.Completion (Response MatchResults))
  : Js.Completion MatchResults :=
  match reply with
  | Js.Normal response =>
      if ok response
      then json response
      else Js.Abrupt (Js.ErrorObject
                        ("Error fetching matches: " ++ Js.toString (status response)))
  | Js.Abrupt e => Js.Abrupt e
  end.

(** Successive clicks on "Load More", each followed by the load it
    triggers, the backend answering with the given pages in turn. *)
Fixpoint loadPages (env : option string) (pages : list (list InvestorMatch)) (n : Z)
  : Js.Eff (World DirectoryState) unit :=
  match pages with
  | [] => Js.ret tt
  | p :: rest => loadMore env (pageReply p n) ;; loadPages env rest n
  end.

(** The URLs asked for by a fresh search followed by [k] further pages. *)
Definition pagedUrls (env : option string) (s : DirectoryState) (k : nat) : list string :=
  map (fun i => directoryUrl env (stageFilter s) (hqFilter s) (sortBy s)
                  (Z.of_nat i * LIMIT))
      (seq 0 (S k)).

(** [!loading && investors.length === 0]: the "No investors found" notice. *)
Definition showsEmptyNotice (s : DirectoryState) : bool :=
  negb (loading s) && (Js.length (dir_investors s) =? 0)%Z.

(** *** Helper lemmas *)

Lemma countChar_app (c : ascii) (a b : string) :
  countChar c (a ++ b) = (countChar c a + countChar c b)%nat.
Proof.
  induction a as [| d a IH]; simpl; [reflexivity |].
  rewrite IH. lia.
Qed.

Lemma urlEncode_no_ampersand (s : string) : countChar "&" (urlEncode s) = 0%nat.
Proof.
  induction s as [| c s IH]; [reflexivity |].
  destruct c as [[] [] [] [] [] [] [] []]; cbn; rewrite ?IH; reflexivity.
Qed.

Lemma urlEncode_no_equals (s : string) : countChar "=" (urlEncode s) = 0%nat.
Proof.
  induction s as [| c s IH]; [reflexivity |].
  destruct c as [[] [] [] [] [] [] [] []]; cbn; rewrite ?IH; reflexivity.
Qed.

Lemma exec_bind {W A B : Type} (m : Js.Eff W A) (k : A -> Js.Eff W B) (a : A) (w : W) :
  Js.completion m w = Js.Normal a ->
  Js.exec (Js.bind m k) w = Js.exec (k a) (Js.exec m w).
Proof.
  unfold Js.completion, Js.exec, Js.bind. destruct (m w) as [c w']. simpl.
  intros ->. reflexivity.
Qed.

Lemma loadMore_completes (env : option string)
    (reply : Js.Completion (Response DirectoryPageData)) (w : World DirectoryState) :
  Js.completion (loadMore env reply) w = Js.Normal tt.
Proof.
  exact (proj1 (loadInvestors_settles env reply (Js.exec onLoadMoreClick w))).
Qed.

Lemma loadMore_page (env : option string) (page : list InvestorMatch) (n : Z)
    (w : World DirectoryState) :
  (0 <= skip (ui w))%Z ->
  let w' := Js.exec (loadMore env (pageReply page n)) w in
  dir_investors (ui w') = (dir_investors (ui w) ++ page)%list /\
  skip (ui w') = (skip (ui w) + LIMIT)%Z /\
  stageFilter (ui w') = stageFilter (ui w) /\
  hqFilter (ui w') = hqFilter (ui w) /\
  sortBy (ui w') = sortBy (ui w) /\
  requests w' = (requests w ++
                  [ {| method := "GET";
                       url := directoryUrl env (stageFilter (ui w)) (hqFilter (ui w))
                                (sortBy (ui w)) (skip (ui w) + LIMIT);
                       headers := []; payload := NoPayload |} ])%list.
Proof.
  intros Hs w'. subst w'. run_eff. unfold withSkip, LIMIT. cbn.
  destruct (Z.eqb_spec (skip (ui w) + 50) 0) as [E | _]; [lia |].
  repeat split.
Qed.

Lemma loadInvestors_filters (env : option string)
    (reply : Js.Completion (Response DirectoryPageData)) (w : World DirectoryState) :
  stageFilter (ui (Js.exec (loadInvestors env reply) w)) = stageFilter (ui w) /\
  hqFilter (ui (Js.exec (loadInvestors env reply) w)) = hqFilter (ui w) /\
  sortBy (ui (Js.exec (loadInvestors env reply) w)) = sortBy (ui w).
Proof.
  run_eff. case_reply reply; destruct (skip (ui w) =? 0)%Z; repeat split.
Qed.

Lemma loadPages_run (env : option string) (n : Z) (pages : list (list InvestorMatch)) :
  forall w : World DirectoryState,
    (0 <= skip (ui w))%Z ->
    let w' := Js.exec (loadPages env pages n) w in
    dir_investors (ui w') = (dir_investors (ui w) ++ concat pages)%list /\
    skip (ui w') = (skip (ui w) + Z.of_nat (List.length pages) * LIMIT)%Z /\
    map url (requests w')
      = (map url (requests w) ++
         map (fun i => directoryUrl env (stageFilter (ui w)) (hqFilter (ui w))
                         (sortBy (ui w)) (skip (ui w) + Z.of_nat i * LIMIT))
             (seq 1 (List.length pages)))%list.
Proof.
  induction pages as [| p rest IH]; intros w Hs w'; subst w'.
  - unfold Js.exec. cbn. rewrite !app_nil_r.
    split; [reflexivity |]. split; [lia | reflexivity].
  - cbn [loadPages].
    rewrite (exec_bind _ _ tt) by apply loadMore_completes.
    destruct (loadMore_page env p n w Hs) as [Hl [Hk [Hst [Hhq [Hso Hr]]]]].
    assert (Hs' : (0 <= skip (ui (Js.exec (loadMore env (pageReply p n)) w)))%Z)
      by (rewrite Hk; unfold LIMIT; lia).
    destruct (IH _ Hs') as [IHl [IHk IHr]].
    rewrite IHl, IHk, IHr, Hl, Hk, Hst, Hhq, Hso, Hr.
    split; [cbn [concat]; rewrite app_assoc; reflexivity |].
    split; [cbn [List.length]; unfold LIMIT; lia |].
    rewrite map_app. cbn [map url List.length seq]. rewrite <- app_assoc. cbn [app].
    apply f_equal. apply f_equal2.
    + apply f_equal. unfold LIMIT. lia.
    + rewrite <- (seq_shift (List.length rest) 1), map_map. apply map_ext. intros i.
      apply f_equal. unfold LIMIT. lia.
Qed.

(** *** Properties *)

(** Whatever the filter values and the offset are, the query string of the
    directory request has exactly five parameters: the values are encoded so
    that none of them can add a separator or an assignment of its own. *)
Theorem directory_query_has_five_parameters (stage hq sortBy : string) (skip : Z) :
  countChar "&" (searchParams (directoryParams stage hq sortBy skip)) = 4%nat /\
  countChar "=" (searchParams (directoryParams stage hq sortBy skip)) = 5%nat.
Proof.
  unfold directoryParams. cbn [searchParams].
  rewrite !countChar_app, !urlEncode_no_ampersand, !urlEncode_no_equals.
  split; reflexivity.
Qed.

(** [fetchFilteredInvestors] sends one GET request and resolves with the
    page exactly when the answer is ok and its body parses; an answer that is
    not ok throws an Error with the fixed message, and a rejected request or
    an unreadable body throws what it was rejected with. *)
Theorem fetchFilteredInvestors_outcome {S : Type} (env : option string)
    (reply : Js.Completion (Response DirectoryPageData))
    (stage hq sortBy : string) (skip : Z) (w : World S) :
  Js.completion (fetchFilteredInvestors env reply stage hq sortBy skip) w
    = match replyPage reply with
      | Some data => Js.Normal {| investors := investors data; total := total data |}
      | None => Js.Abrupt (directoryFailure reply)
      end /\
  ui (Js.exec (fetchFilteredInvestors env reply stage hq sortBy skip) w) = ui w /\
  requests (Js.exec (fetchFilteredInvestors env reply stage hq sortBy skip) w)
    = (requests w ++
        [ {| method := "GET"; url := directoryUrl env stage hq sortBy skip;
             headers := []; payload := NoPayload |} ])%list.
Proof.
  run_eff. case_reply reply; repeat split.
Qed.

(** [fetchMatchedInvestors] posts the pitch, the amount and the stage as one
    JSON body; an answer that is not ok throws an Error whose message ends
    with the status code, and every failure is thrown on to the caller. *)
Theorem fetchMatchedInvestors_outcome {S : Type} (env : option string)
    (reply : Js.Completion (Response MatchResults))
    (description : string) (raiseAmount : Q) (stage : string) (w : World S) :
  Js.completion (fetchMatchedInvestors env reply description raiseAmount stage) w
    = matchOutcome reply /\
  ui (Js.exec (fetchMatchedInvestors env reply description raiseAmount stage) w) = ui w /\
  requests (Js.exec (fetchMatchedInvestors env reply description raiseAmount stage) w)
    = (requests w ++
        [ {| method := "POST"; url := baseUrl env ++ "/api/v1/ai/match/investors";
             headers := [("Content-Type", "application/json")];
             payload := MatchRequest description raiseAmount stage |} ])%list.
Proof.
  run_eff. destruct reply as [[[|] st [results | e]] | e]; repeat split.
Qed.

(** A load whose request fails in any way (rejected, not ok, unreadable
    body) is swallowed: it does not throw, and it leaves the list, the total,
    the filters and skip as they were, with both spinners off. *)
Theorem loadInvestors_failure_keeps_list (env : option string)
    (reply : Js.Completion (Response DirectoryPageData)) (w : World DirectoryState) :
  replyPage reply = None ->
  Js.completion (loadInvestors env reply) w = Js.Normal tt /\
  ui (Js.exec (loadInvestors env reply) w)
    = {| dir_investors := dir_investors (ui w); loading := false; loadingMore := false;
         totalCount := totalCount (ui w); stageFilter := stageFilter (ui w);
         hqFilter := hqFilter (ui w); sortBy := sortBy (ui w); skip := skip (ui w) |}.
Proof.
  intros H. run_eff.
  case_reply reply; cbn in H; try discriminate H;
    destruct (skip (ui w) =? 0)%Z; split; reflexivity.
Qed.

Lemma loadInvestors_failure_witness :
  dir_investors
    (ui (Js.exec (loadInvestors None
                    (Js.Normal {| ok := false; status := 500; json := Js.Abrupt Js.OtherValue |}))
           {| ui := withInvestors (fun _ => [sample_investor]) directory_initial;
              requests := [] |}))
  = [sample_investor].
Proof.
  destruct (loadInvestors_failure_keeps_list None
              (Js.Normal {| ok := false; status := 500; json := Js.Abrupt Js.OtherValue |})
              {| ui := withInvestors (fun _ => [sample_investor]) directory_initial;
                 requests := [] |} eq_refl) as [_ E].
  rewrite E. reflexivity.
Defined.

(** In every state the page can reach, skip is a non-negative multiple of
    the page size. *)
Theorem skip_is_multiple_of_page_size (w : World DirectoryState) :
  reachable w -> exists k : Z, (0 <= k)%Z /\ skip (ui w) = (k * 50)%Z.
Proof. exact (reachable_skip w). Qed.

Lemma skip_is_multiple_of_page_size_witness :
  exists k : Z, (0 <= k)%Z /\
    skip (ui (Js.exec onLoadMoreClick (Js.exec onLoadMoreClick directory_start)))
    = (k * 50)%Z.
Proof.
  apply (skip_is_multiple_of_page_size
           (Js.exec onLoadMoreClick (Js.exec onLoadMoreClick directory_start))).
  apply reach_click, reach_click, reach_initial.
Defined.

(** A fresh search followed by any number of "Load More" clicks shows the
    returned pages one after the other, in the order they were asked for;
    skip ends at 50 times the number of clicks, and the requests ask for the
    offsets 0, 50, 100, ... under the same filters. *)
Theorem paging_accumulates_pages (env : option string) (first : list InvestorMatch)
    (pages : list (list InvestorMatch)) (n : Z) (w : World DirectoryState) :
  skip (ui w) = 0%Z ->
  let w' := Js.exec (loadInvestors env (pageReply first n) ;; loadPages env pages n) w in
  dir_investors (ui w') = (first ++ concat pages)%list /\
  skip (ui w') = (Z.of_nat (List.length pages) * 50)%Z /\
  map url (requests w')
    = (map url (requests w) ++ pagedUrls env (ui w) (List.length pages))%list.
Proof.
  intros H0 w'. subst w'.
  rewrite (exec_bind _ _ tt) by apply loadInvestors_settles.
  assert (Hs : (0 <= skip (ui (Js.exec (loadInvestors env (pageReply first n)) w)))%Z)
    by (rewrite loadInvestors_skip; lia).
  destruct (loadPages_run env n pages _ Hs) as [Hl [Hk Hr]].
  destruct (loadInvestors_fresh env first n w H0) as [Hfirst _].
  destruct (loadInvestors_filters env (pageReply first n) w) as [Hst [Hhq Hso]].
  rewrite Hl, Hk, Hr, Hfirst, Hst, Hhq, Hso, loadInvestors_skip,
    loadInvestors_requests, H0.
  split; [reflexivity |]. split; [unfold LIMIT; lia |].
  rewrite map_app, <- app_assoc. apply f_equal.
  unfold pagedUrls. cbn [map url seq app]. apply f_equal2; [reflexivity |].
  apply map_ext. intros i. reflexivity.
Qed.

#[warnings="-inexact-float"]
Definition second_investor : InvestorMatch :=
  {| investor_id := 8; name := "Harbor Capital"; match_score := 0.61%float;
     website := "https://harbor.example"; hq := "Lisbon"; type := "Angel network" |}.

Lemma paging_accumulates_pages_witness :
  let w' := Js.exec (loadInvestors None (pageReply [sample_investor] 3) ;;
                     loadPages None [[second_investor]; [sample_investor]] 3)
              directory_start in
  dir_investors (ui w') = [sample_investor; second_investor; sample_investor] /\
  skip (ui w') = 100%Z.
Proof.
  destruct (paging_accumulates_pages None [sample_investor]
              [[second_investor]; [sample_investor]] 3 directory_start eq_refl)
    as [Hl [Hk _]].
  split; [exact Hl | exact Hk].
Defined.

(** However the match request ends, [getMatches] does not throw and turns
    the spinner off, so the list renders a card grid; the cards are those of
    the answer, or, when the request failed in any way, the ones held
    before, and no error is shown.  One POST is sent, carrying the fixed
    pitch, 250000 and "Early Revenue". *)
Theorem getMatches_always_settles (env : option string)
    (reply : Js.Completion (Response MatchResults)) (w : World MatchListState) :
  let w' := Js.exec (getMatches env reply) w in
  Js.completion (getMatches env reply) w = Js.Normal tt /\
  ml_loading (ui w') = false /\
  ml_investors (ui w')
    = match matchOutcome reply with
      | Js.Normal results => top_investors results
      | Js.Abrupt _ => ml_investors (ui w)
      end /\
  InvestorMatchList (ui w') = CardGrid (map InvestorCard (ml_investors (ui w'))) /\
  requests w'
    = (requests w ++
        [ {| method := "POST"; url := baseUrl env ++ "/api/v1/ai/match/investors";
             headers := [("Content-Type", "application/json")];
             payload := MatchRequest startupPitch 250000 "Early Revenue" |} ])%list.
Proof.
  intros w'. subst w'. unfold InvestorMatchList. run_eff.
  destruct reply as [[[|] st [results | e]] | e]; repeat split.
Qed.

(** After a fresh search has returned, the "No investors found" notice is
    shown exactly when the page is empty, and the "Load More" button exactly
    when the page holds fewer investors than the total the backend
    reported. *)
Theorem fresh_search_notices (env : option string) (page : list InvestorMatch) (n : Z)
    (w : World DirectoryState) :
  skip (ui w) = 0%Z ->
  let s' := ui (Js.exec (loadInvestors env (pageReply page n)) w) in
  showsEmptyNotice s' = (match page with [] => true | _ :: _ => false end) /\
  showsLoadMore s' = (Z.of_nat (List.length page) <? n)%Z.
Proof.
  intros H0 s'. subst s'. unfold showsEmptyNotice, showsLoadMore, Js.length.
  destruct (loadInvestors_fresh env page n w H0) as [Hp Hn].
  destruct (loadInvestors_settles env (pageReply page n) w) as [_ [Hl _]].
  rewrite Hp, Hn, Hl. split; [| reflexivity].
  destruct page; reflexivity.
Qed.

Lemma fresh_search_notices_witness :
  let s' := ui (Js.exec (loadInvestors None (pageReply [] 120)) directory_start) in
  showsEmptyNotice s' = true /\ showsLoadMore s' = true.
Proof.
  exact (fresh_search_notices None [] 120 directory_start eq_refl).
Defined.

End InvestorFlows.

(* ================================================================== *)
(** ** The chat store in use: report panel, chat widget, history shape *)

Module CfoFlows.
Import AuthStore CfoStore.
Open Scope eff_scope.

Definition reportFailureText : string :=
  "Failed to compile the executive summary. Ensure you have financial data imported.".

(** The report stored after [fetchExecutiveReport] has settled. *)
Definition reportText (reply : Js.Completion string) : string :=
  match reply with
  | Js.Normal report => report
  | Js.Abrupt _ => reportFailureText
  end.

(** Truthiness of an optional text: [null] and the empty text are falsy. *)
Definition truthyText (x : option string) : bool :=
  match x with
  | Some s => negb (String.eqb s "")
  | None => false
  end.

(** *** ExecutiveReport *)

(** The effect run once on mount. *)
Definition ExecutiveReport_mount (reply : Js.Completion string) : Js.Eff World unit :=
  w <- Js.get ;;
  if negb (truthyText (monthlyReport (cfo w))) && negb (isGeneratingReport (cfo w))
  then fetchExecutiveReport reply
  else Js.ret tt.

Inductive ReportBody : Type :=
| Skeleton
| ReportText (report : string)
| NoFinancialData.

Record ReportPanel : Type := {
  refreshDisabled : bool;
  refreshLabel : string;
  body : ReportBody
}.

Definition ExecutiveReport (s : CfoState) : ReportPanel :=
  {| refreshDisabled := isGeneratingReport s;
     refreshLabel := if isGeneratingReport s then "Compiling..." else "↻ Refresh Report";
     body := if isGeneratingReport s then Skeleton
             else match monthlyReport s with
                  | Some report => if negb (String.eqb report "") then ReportText report
                                   else NoFinancialData
                  | None => NoFinancialData
                  end |}.

(** *** CfoChatWidget *)

Record WidgetWorld : Type := {
  store : World;
  isWidgetOpen : bool;
  currentInput : string
}.

(** A store action run from the widget. *)
Definition inStore {A : Type} (m : Js.Eff World A) : Js.Eff WidgetWorld A :=
  fun ww =>
    match m (store ww) with
    | (c, w') => (c, {| store := w'; isWidgetOpen := isWidgetOpen ww;
                        currentInput := currentInput ww |})
    end.

Definition setCurrentInput (s : string) : Js.Eff WidgetWorld unit :=
  Js.modify (fun ww => {| store := store ww; isWidgetOpen := isWidgetOpen ww;
                          currentInput := s |}).

Section Widget.

(** [String.prototype.trim] *)
Variable trim : string -> string.

Definition handleFormSubmit (reply : Js.Completion string) : Js.Eff WidgetWorld unit :=
  ww <- Js.get ;;
  if String.eqb (trim (currentInput ww)) "" || isProcessingChat (cfo (store ww))
  then Js.ret tt
  else
    setCurrentInput "" ;;
    inStore (sendUserMessage reply (currentInput ww)).

(** The send button's [disabled]. *)
Definition sendDisabled (ww : WidgetWorld) : bool :=
  isProcessingChat (cfo (store ww)) || String.eqb (trim (currentInput ww)) "".

End Widget.

(** *** The shape of the history *)

Definition otherRole (r : Role) : Role :=
  match r with
  | user_role => ai_role
  | ai_role => user_role
  end.

Definition sameRole (a b : Role) : bool :=
  match a, b with
  | user_role, user_role => true
  | ai_role, ai_role => true
  | _, _ => false
  end.

(** The history takes turns, beginning with [next] and ending with an
    entry of the assistant. *)
Fixpoint takesTurns (next : Role) (history : list ChatMessage) : bool :=
  match history with
  | [] => sameRole next user_role
  | m :: rest => sameRole (role m) next && takesTurns (otherRole next) rest
  end.

(** The states of the store: its initial state under any auth store, and
    what the three actions, each run to its end, make of a state. *)
Inductive reachable : World -> Prop :=
| reach_initial (a : AuthState) :
    reachable {| cfo := initial; auth := a; posts := [] |}
| reach_send (reply : Js.Completion string) (message : string) (w : World) :
    reachable w -> reachable (Js.exec (sendUserMessage reply message) w)
| reach_report (reply : Js.Completion string) (w : World) :
    reachable w -> reachable (Js.exec (fetchExecutiveReport reply) w)
| reach_reset (w : World) :
    reachable w -> reachable (Js.exec resetChatSession w).

(** *** Helper lemmas *)

Ltac run_store :=
  unfold Js.exec, Js.completion, ExecutiveReport_mount, sendUserMessage,
    fetchExecutiveReport, resetChatSession, Js.try_catch_finally, Js.try_finally,
    Js.try_catch, Js.bind, set, getToken, axios_post, Js.modify, Js.get, Js.ret;
  cbn [fst snd cfo auth posts].

Lemma takesTurns_exchange (history : list ChatMessage) (question answer : string) :
  forall next : Role,
    takesTurns next history = true ->
    takesTurns next
      (history ++ [ {| role := user_role; text := question |};
                    {| role := ai_role; text := answer |} ])%list = true.
Proof.
  induction history as [| m rest IH]; intros next H; cbn in *.
  - destruct next; [reflexivity | discriminate H].
  - apply andb_true_iff in H. destruct H as [H1 H2].
    rewrite H1. cbn. apply IH. exact H2.
Qed.

Lemma sendUserMessage_state (reply : Js.Completion string) (message : string) (w : World) :
  cfo (Js.exec (sendUserMessage reply message) w)
  = {| chatHistory := (chatHistory (cfo w) ++
                        [ {| role := user_role; text := message |};
                          {| role := ai_role; text := replyText reply |} ])%list;
       monthlyReport := monthlyReport (cfo w);
       isProcessingChat := false;
       isGeneratingReport := isGeneratingReport (cfo w) |}.
Proof.
  run_store. destruct reply as [response | e]; cbn; rewrite <- app_assoc; reflexivity.
Qed.

Lemma fetchExecutiveReport_state (reply : Js.Completion string) (w : World) :
  cfo (Js.exec (fetchExecutiveReport reply) w)
  = {| chatHistory := chatHistory (cfo w);
       monthlyReport := Some (reportText reply);
       isProcessingChat := isProcessingChat (cfo w);
       isGeneratingReport := false |}.
Proof.
  run_store. destruct reply as [report | e]; reflexivity.
Qed.

Lemma reachable_shape (w : World) :
  reachable w ->
  takesTurns ai_role (chatHistory (cfo w)) = true /\
  isProcessingChat (cfo w) = false /\
  isGeneratingReport (cfo w) = false.
Proof.
  induction 1 as [a | reply message w _ [IH1 [IH2 IH3]] | reply w _ [IH1 [IH2 IH3]]
                  | w _ [IH1 [IH2 IH3]]].
  - repeat split.
  - rewrite sendUserMessage_state. cbn.
    split; [apply takesTurns_exchange; exact IH1 |]. split; [reflexivity | exact IH3].
  - rewrite fetchExecutiveReport_state. cbn. repeat split; assumption.
  - run_store. cbn. repeat split; assumption.
Qed.

Lemma mount_without_report
    (reply : Js.Completion string) (w : World) :
  monthlyReport (cfo w) = None -> isGeneratingReport (cfo w) = false ->
  Js.exec (ExecutiveReport_mount reply) w = Js.exec (fetchExecutiveReport reply) w.
Proof.
  intros Hr Hg. unfold ExecutiveReport_mount, Js.exec, Js.bind, Js.get.
  cbn. rewrite Hr, Hg. reflexivity.
Qed.

(** *** Properties *)

(** [fetchExecutiveReport] always leaves a report in the store: the
    backend's, or the fixed failure text when the request fails.  It sends
    one POST with the bearer token, does not throw, turns the generating flag
    off and leaves the chat alone. *)
Theorem fetchExecutiveReport_always_stores_a_report
    (reply : Js.Completion string) (w : World) :
  let w' := Js.exec (fetchExecutiveReport reply) w in
  Js.completion (fetchExecutiveReport reply) w = Js.Normal tt /\
  monthlyReport (cfo w') = Some (reportText reply) /\
  isGeneratingReport (cfo w') = false /\
  chatHistory (cfo w') = chatHistory (cfo w) /\
  isProcessingChat (cfo w') = isProcessingChat (cfo w) /\
  posts w'
    = (posts w ++
        [ {| Http.method := "POST"; Http.url := "/api/v1/ai/report";
             Http.headers := [("Authorization", bearer (token (auth w)))];
             Http.payload := Http.EmptyObject |} ])%list.
Proof.
  intros w'. subst w'. run_store. destruct reply as [report | e]; repeat split.
Qed.

(** Mounting the report panel asks for a report only when none is stored
    (or an empty one) and none is being generated; otherwise it sends
    nothing and changes nothing. *)
Theorem ExecutiveReport_mount_fetches_only_when_missing
    (reply : Js.Completion string) (w : World) :
  Js.exec (ExecutiveReport_mount reply) w
  = if truthyText (monthlyReport (cfo w)) || isGeneratingReport (cfo w)
    then w
    else Js.exec (fetchExecutiveReport reply) w.
Proof.
  unfold ExecutiveReport_mount, Js.exec, Js.bind, Js.get, Js.ret.
  destruct (truthyText (monthlyReport (cfo w))); destruct (isGeneratingReport (cfo w));
    reflexivity.
Qed.

(** After the panel has mounted on a store without a report, it shows the
    backend's report, the failure text when the request failed, and the
    "no financial data" line only when the backend answered with an empty
    report; the refresh button is enabled again. *)
Theorem ExecutiveReport_after_mount (reply : Js.Completion string) (w : World) :
  monthlyReport (cfo w) = None -> isGeneratingReport (cfo w) = false ->
  ExecutiveReport (cfo (Js.exec (ExecutiveReport_mount reply) w))
  = {| refreshDisabled := false;
       refreshLabel := "↻ Refresh Report";
       body := match reply with
               | Js.Normal report =>
                   if String.eqb report "" then NoFinancialData else ReportText report
               | Js.Abrupt _ => ReportText reportFailureText
               end |}.
Proof.
  intros Hr Hg. rewrite mount_without_report by assumption.
  rewrite fetchExecutiveReport_state. unfold ExecutiveReport. cbn.
  destruct reply as [report | e]; cbn; [| reflexivity].
  destruct (String.eqb report ""); reflexivity.
Qed.

Definition signed_in_store : World :=
  {| cfo := initial;
     auth := {| user := None; token := Some "t0k"; isAuthenticated := true |};
     posts := [] |}.

Lemma ExecutiveReport_after_mount_witness :
  body (ExecutiveReport
          (cfo (Js.exec (ExecutiveReport_mount (Js.Abrupt Js.OtherValue)) signed_in_store)))
  = ReportText reportFailureText.
Proof.
  rewrite (ExecutiveReport_after_mount (Js.Abrupt Js.OtherValue) signed_in_store
             eq_refl eq_refl).
  reflexivity.
Defined.

(** In every state the store reaches, the history is not empty and takes
    turns: it opens with an entry of the assistant, user and assistant
    alternate, and the last entry is the assistant's; no typing indicator is
    left on. *)
Theorem chat_history_takes_turns (w : World) :
  reachable w ->
  takesTurns ai_role (chatHistory (cfo w)) = true /\
  chatHistory (cfo w) <> [] /\
  isProcessingChat (cfo w) = false.
Proof.
  intros H. destruct (reachable_shape w H) as [Ht [Hp _]].
  split; [exact Ht |]. split; [| exact Hp].
  intros E. rewrite E in Ht. discriminate Ht.
Qed.

Lemma chat_history_takes_turns_witness :
  takesTurns ai_role
    (chatHistory (cfo (Js.exec (sendUserMessage (Js.Abrupt Js.OtherValue) "How long is my runway?")
                         (Js.exec (sendUserMessage (Js.Normal "About five months.") "Runway?")
                            signed_in_store))))
  = true.
Proof.
  apply (chat_history_takes_turns
           (Js.exec (sendUserMessage (Js.Abrupt Js.OtherValue) "How long is my runway?")
              (Js.exec (sendUserMessage (Js.Normal "About five months.") "Runway?")
                 signed_in_store))).
  apply reach_send, reach_send. exact (reach_initial _).
Defined.

(** Submitting the chat form does nothing at all while the send button is
    disabled, that is, while the input trims to nothing or an answer is
    pending: no request, no new entry, the input kept.  Otherwise the input
    box is cleared and the untrimmed input is sent as the message, once. *)
Theorem handleFormSubmit_guard (trim : string -> string)
    (reply : Js.Completion string) (ww : WidgetWorld) :
  (sendDisabled trim ww = true -> Js.exec (handleFormSubmit trim reply) ww = ww) /\
  (sendDisabled trim ww = false ->
     let ww' := Js.exec (handleFormSubmit trim reply) ww in
     currentInput ww' = "" /\
     isWidgetOpen ww' = isWidgetOpen ww /\
     chatHistory (cfo (store ww'))
       = (chatHistory (cfo (store ww)) ++
           [ {| role := user_role; text := currentInput ww |};
             {| role := ai_role; text := replyText reply |} ])%list /\
     List.length (posts (store ww')) = S (List.length (posts (store ww)))).
Proof.
  unfold sendDisabled, handleFormSubmit, Js.exec, Js.bind, Js.get, Js.ret,
    setCurrentInput, Js.modify, inStore.
  rewrite orb_comm. cbn [fst snd].
  destruct (String.eqb (trim (currentInput ww)) "" || isProcessingChat (cfo (store ww))).
  - split; [destruct ww; reflexivity | discriminate].
  - split; [discriminate |]. intros _. cbn [store isWidgetOpen currentInput].
    destruct (sendUserMessage reply (currentInput ww) (store ww)) as [c w'] eqn:E.
    cbn [snd store isWidgetOpen currentInput].
    assert (Ew : w' = Js.exec (sendUserMessage reply (currentInput ww)) (store ww))
      by (unfold Js.exec; rewrite E; reflexivity).
    rewrite Ew, sendUserMessage_state. cbn [chatHistory].
    repeat split.
    run_store. destruct reply as [r | e]; cbn; rewrite length_app; cbn; lia.
Qed.

(** A stand-in for [trim]: leading blanks are dropped. *)
Fixpoint dropLeadingBlanks (s : string) : string :=
  match s with
  | String " " rest => dropLeadingBlanks rest
  | _ => s
  end.

Lemma handleFormSubmit_blank_witness :
  Js.exec (handleFormSubmit dropLeadingBlanks (Js.Normal "unused"))
    {| store := signed_in_store; isWidgetOpen := true; currentInput := "   " |}
  = {| store := signed_in_store; isWidgetOpen := true; currentInput := "   " |}.
Proof.
  apply (proj1 (handleFormSubmit_guard dropLeadingBlanks (Js.Normal "unused")
                  {| store := signed_in_store; isWidgetOpen := true;
                     currentInput := "   " |})).
  reflexivity.
Defined.

End CfoFlows.

(* ================================================================== *)
(** ** DashboardPage: key metrics, runway label and report generation *)

Module DashboardFigures.
Import Dashboard.
Open Scope Q_scope.


(** [cashFlow.reduce((sum, m) => sum + (m.income || 0), 0)] *)
Definition totalRevenue (cashFlow : list CashFlowPoint) : Q :=
  fold_left (fun sum m => sum + Js.or0 (income m)) cashFlow 0.








(** *** The runway label *)

Record Metric : Type := {
  id : string;
  value : string;
  change : option string
}.

(** The class [[\d.]] of the pattern. *)
Definition digitOrDot (c : ascii) : bool :=
  let n := N_of_ascii c in
  ((n =? 46) || ((48 <=? n) && (n <=? 57)))%N.

(** The longest run of the class at the head of a text. *)
Fixpoint takeRun (s : string) : string :=
  match s with
  | EmptyString => EmptyString
  | String c rest => if digitOrDot c then String c (takeRun rest) else EmptyString
  end.

(** [s.match(/[\d.]+/)?.[0]]: the first, longest run of digits and dots. *)
Fixpoint firstRun (s : string) : option string :=
  match s with
  | EmptyString => None
  | String c rest => if digitOrDot c then Some (String c (takeRun rest)) else firstRun rest
  end.

(** [x || fallback] on an optional text. *)
Definition orText (x : option string) (fallback : string) : string :=
  match x with
  | Some s => if String.eqb s "" then fallback else s
  | None => fallback
  end.

(** [data?.metrics.find(m => m.id === 'runway')] *)
Definition runwayMetric (data : option (list Metric)) : option Metric :=
  match data with
  | Some metrics => find (fun m => String.eqb (id m) "runway") metrics
  | None => None
  end.

(** [runwayMetric?.change?.match(/[\d.]+/)?.[0] || '0'] *)
Definition runwayMonths (data : option (list Metric)) : string :=
  orText
    match runwayMetric data with
    | Some m => match change m with
                | Some c => firstRun c
                | None => None
                end
    | None => None
    end
    "0".

Fixpoint allChars (p : ascii -> bool) (s : string) : bool :=
  match s with
  | EmptyString => true
  | String c rest => p c && allChars p rest
  end.

(** The next character, if any, is outside the class. *)
Definition stopsRun (s : string) : bool :=
  match s with
  | EmptyString => true
  | String c _ => negb (digitOrDot c)
  end.

(** *** handleGenerateReport *)

Inductive TimerAction : Type :=
| ClearSuccess
| ClearError.

Section Reports.

(** The report kinds of dashboard.service. *)
Variable ReportType : Type.

Record ReportsWorld : Type := {
  generatingReport : option ReportType;
  reportSuccess : option string;
  reportError : option string;
  timers : list (Z * TimerAction);
  reportCalls : list ReportType
}.

Definition setGeneratingReport (r : option ReportType) : Js.Eff ReportsWorld unit :=
  Js.modify (fun w => {| generatingReport := r; reportSuccess := reportSuccess w;
                         reportError := reportError w; timers := timers w;
                         reportCalls := reportCalls w |}).

Definition setReportSuccess (m : option string) : Js.Eff ReportsWorld unit :=
  Js.modify (fun w => {| generatingReport := generatingReport w; reportSuccess := m;
                         reportError := reportError w; timers := timers w;
                         reportCalls := reportCalls w |}).

Definition setReportError (m : option string) : Js.Eff ReportsWorld unit :=
  Js.modify (fun w => {| generatingReport := generatingReport w;
                         reportSuccess := reportSuccess w;
                         reportError := m; timers := timers w;
                         reportCalls := reportCalls w |}).

(** [setTimeout(action, delay)] *)
Definition setTimeout (action : TimerAction) (delay : Z) : Js.Eff ReportsWorld unit :=
  Js.modify (fun w => {| generatingReport := generatingReport w;
                         reportSuccess := reportSuccess w;
                         reportError := reportError w;
                         timers := (timers w ++ [(delay, action)])%list;
                         reportCalls := reportCalls w |}).

(** [await generateReport(reportType)], settled by the environment. *)
Definition generateReport (reply : Js.Completion unit) (reportType : ReportType)
  : Js.Eff ReportsWorld unit :=
  fun w => (reply,
            {| generatingReport := generatingReport w; reportSuccess := reportSuccess w;
               reportError := reportError w; timers := timers w;
               reportCalls := (reportCalls w ++ [reportType])%list |}).

Definition handleGenerateReport (reply : Js.Completion unit) (reportType : ReportType)
  : Js.Eff ReportsWorld unit :=
  (setGeneratingReport (Some reportType) ;;
   setReportError None ;;
   setReportSuccess None ;;
   Js.try_catch_finally
     (generateReport reply reportType ;;
      setReportSuccess (Some "Report downloaded successfully!") ;;
      setTimeout ClearSuccess 3000)
     (fun err =>
        setReportError (Some "Failed to generate report. Please try again.") ;;
        setTimeout ClearError 5000)
     (setGeneratingReport None))%eff.

(** A timer firing. *)
Definition fire (action : TimerAction) : Js.Eff ReportsWorld unit :=
  match action with
  | ClearSuccess => setReportSuccess None
  | ClearError => setReportError None
  end.

(** Every report button's [disabled]. *)
Definition reportButtonsDisabled (w : ReportsWorld) : bool :=
  match generatingReport w with
  | Some _ => true
  | None => false
  end.

(** Whether the request succeeds or fails, [handleGenerateReport] calls
    the service once, does not throw and re-enables the report buttons; it
    leaves exactly one banner set, the success text with a timer of 3000 ms
    to clear it, or the failure text with a timer of 5000 ms. *)
Theorem handleGenerateReport_outcome (reply : Js.Completion unit)
    (reportType : ReportType) (w : ReportsWorld) :
  let w' := Js.exec (handleGenerateReport reply reportType) w in
  Js.completion (handleGenerateReport reply reportType) w = Js.Normal tt /\
  generatingReport w' = None /\
  reportButtonsDisabled w' = false /\
  reportCalls w' = (reportCalls w ++ [reportType])%list /\
  match reply with
  | Js.Normal _ =>
      reportSuccess w' = Some "Report downloaded successfully!" /\
      reportError w' = None /\
      timers w' = (timers w ++ [(3000%Z, ClearSuccess)])%list
  | Js.Abrupt _ =>
      reportSuccess w' = None /\
      reportError w' = Some "Failed to generate report. Please try again." /\
      timers w' = (timers w ++ [(5000%Z, ClearError)])%list
  end.
Proof.
  intros w'. subst w'.
  unfold Js.exec, Js.completion, handleGenerateReport, reportButtonsDisabled,
    Js.try_catch_finally, Js.try_finally, Js.try_catch, Js.bind, generateReport,
    setGeneratingReport, setReportSuccess, setReportError, setTimeout, Js.modify.
  destruct reply as [[] | e]; cbn; repeat split.
Qed.

End Reports.

(** *** Helper lemmas *)

Lemma fold_sum_acc (g : CashFlowPoint -> Q) (l : list CashFlowPoint) :
  forall acc : Q,
    fold_left (fun sum m => sum + g m) l acc
    == acc + fold_left (fun sum m => sum + g m) l 0.
Proof.
  induction l as [| m rest IH]; intros acc; cbn [fold_left].
  - ring.
  - rewrite (IH (acc + g m)), (IH (0 + g m)). ring.
Qed.




Lemma takeRun_all (s : string) : allChars digitOrDot (takeRun s) = true.
Proof.
  induction s as [| c rest IH]; [reflexivity |].
  cbn. destruct (digitOrDot c) eqn:E; [cbn; rewrite E; exact IH | reflexivity].
Qed.

Lemma firstRun_shape (s run : string) :
  firstRun s = Some run -> run <> "" /\ allChars digitOrDot run = true.
Proof.
  induction s as [| c rest IH]; cbn; [discriminate |].
  destruct (digitOrDot c) eqn:E; [| exact IH].
  intros H. injection H as <-. split; [discriminate |].
  cbn. rewrite E. apply takeRun_all.
Qed.

Lemma takeRun_stops (run rest : string) :
  allChars digitOrDot run = true -> stopsRun rest = true ->
  takeRun (run ++ rest) = run.
Proof.
  intros Hrun Hstop. induction run as [| c run IH]; cbn [takeRun append allChars] in *.
  - destruct rest as [| d rest]; [reflexivity |].
    cbn [stopsRun takeRun] in *. apply negb_true_iff in Hstop. rewrite Hstop. reflexivity.
  - apply andb_true_iff in Hrun. destruct Hrun as [Hc Hrun].
    rewrite Hc, (IH Hrun). reflexivity.
Qed.

Lemma firstRun_after_prefix (pre run rest : string) :
  allChars (fun c => negb (digitOrDot c)) pre = true ->
  allChars digitOrDot run = true -> run <> "" -> stopsRun rest = true ->
  firstRun (pre ++ run ++ rest) = Some run.
Proof.
  intros Hpre Hrun Hne Hstop.
  induction pre as [| c pre IH]; cbn [firstRun append allChars] in *.
  - destruct run as [| c run]; [congruence |]. cbn [firstRun append allChars] in *.
    apply andb_true_iff in Hrun. destruct Hrun as [Hc Hrun].
    rewrite Hc, (takeRun_stops run rest Hrun Hstop). reflexivity.
  - apply andb_true_iff in Hpre. destruct Hpre as [Hc Hpre].
    apply negb_true_iff in Hc. rewrite Hc. exact (IH Hpre).
Qed.

(** *** Properties *)

(** The all-time revenue is a running total of [income || 0]: it starts at
    0 and each further month adds its income to what the months before it
    gave; a month whose income is missing, [null] or 0 adds nothing, so that
    leaving it out of the series, wherever it stands, does not change the
    revenue, whatever its expenses and balance are. *)
Theorem months_without_income_add_nothing :
  totalRevenue [] == 0 /\
  (forall (cashFlow : list CashFlowPoint) (m : CashFlowPoint),
     totalRevenue (cashFlow ++ [m]) == totalRevenue cashFlow + Js.or0 (income m)) /\
  (forall (cashFlow : list CashFlowPoint) (m : CashFlowPoint) (i : Q),
     income m = Some i -> ~ i == 0 ->
     totalRevenue (cashFlow ++ [m]) == totalRevenue cashFlow + i) /\
  (forall (earlier later : list CashFlowPoint) (m : CashFlowPoint),
     Js.truthy (income m) = false ->
     totalRevenue (earlier ++ m :: later) == totalRevenue (earlier ++ later)).
Proof.
  split; [reflexivity |]. split; [| split].
  - intros cashFlow m. unfold totalRevenue. rewrite fold_left_app. reflexivity.
  - intros cashFlow m i Hm Hi. unfold totalRevenue. rewrite fold_left_app.
    cbn [fold_left]. rewrite Hm. cbn [Js.or0].
    destruct (Qeq_bool i 0) eqn:E; [| reflexivity].
    apply Qeq_bool_eq in E. contradiction.
  - intros earlier later m Hm. unfold totalRevenue. rewrite !fold_left_app.
    cbn [fold_left].
    assert (E : Js.or0 (income m) = 0).
    { unfold Js.truthy in Hm. unfold Js.or0.
      destruct (income m) as [q |]; [| reflexivity].
      destruct (Qeq_bool q 0); [reflexivity | discriminate]. }
    rewrite E.
    rewrite (fold_sum_acc (fun x => Js.or0 (income x)) later
               (fold_left (fun sum x => sum + Js.or0 (income x)) earlier 0 + 0)).
    rewrite (fold_sum_acc (fun x => Js.or0 (income x)) later
               (fold_left (fun sum x => sum + Js.or0 (income x)) earlier 0)).
    ring.
Qed.

(** Two months of sales around a month that only had costs. *)
Lemma months_without_income_witness :
  totalRevenue [ {| balance := 1000; income := Some 400; expenses := Some 300 |};
                 {| balance := 500; income := None; expenses := Some 500 |};
                 {| balance := 1100; income := Some 600; expenses := None |} ]
  == totalRevenue [ {| balance := 1000; income := Some 400; expenses := Some 300 |};
                    {| balance := 1100; income := Some 600; expenses := None |} ].
Proof.
  destruct months_without_income_add_nothing as [_ [_ [_ H]]].
  apply (H [ {| balance := 1000; income := Some 400; expenses := Some 300 |} ]
           [ {| balance := 1100; income := Some 600; expenses := None |} ]
           {| balance := 500; income := None; expenses := Some 500 |}).
  reflexivity.
Defined.


(** The runway label is never empty and consists of digits and dots only;
    without a runway metric, without its change text, or without a digit or
    dot in that text, it is "0". *)
Theorem runwayMonths_is_a_run_of_digits (data : option (list Metric)) :
  runwayMonths data <> "" /\
  allChars digitOrDot (runwayMonths data) = true /\
  (runwayMetric data = None -> runwayMonths data = "0") /\
  (forall m, runwayMetric data = Some m -> change m = None -> runwayMonths data = "0") /\
  (forall m c, runwayMetric data = Some m -> change m = Some c -> firstRun c = None ->
     runwayMonths data = "0").
Proof.
  unfold runwayMonths.
  destruct (runwayMetric data) as [m |]; cbn [orText].
  2: { repeat split; try discriminate. }
  destruct (change m) as [c |] eqn:Hc; cbn [orText].
  2: { repeat split; try discriminate. }
  destruct (firstRun c) as [run |] eqn:E; cbn [orText].
  2: { repeat split; try discriminate. }
  destruct (firstRun_shape c run E) as [Hne Hall].
  destruct (String.eqb_spec run "") as [-> | _]; [congruence |].
  split; [exact Hne |]. split; [exact Hall |].
  split; [discriminate |]. split.
  - intros m' Hm' Hc'. injection Hm' as <-. congruence.
  - intros m' c' Hm' Hc' Hf. injection Hm' as <-.
    rewrite Hc in Hc'. injection Hc' as <-. congruence.
Qed.

(** When the change text of the runway metric reads: some characters that
    are neither digits nor dots, then a run of digits and dots, then the end
    or another character, the runway label is that run. *)
Theorem runwayMonths_extracts_the_first_run (metrics : list Metric) (m : Metric)
    (pre run rest : string) :
  runwayMetric (Some metrics) = Some m ->
  change m = Some (pre ++ run ++ rest) ->
  allChars (fun c => negb (digitOrDot c)) pre = true ->
  allChars digitOrDot run = true -> run <> "" -> stopsRun rest = true ->
  runwayMonths (Some metrics) = run.
Proof.
  intros Hm Hc Hpre Hrun Hne Hstop.
  unfold runwayMonths. rewrite Hm, Hc.
  rewrite (firstRun_after_prefix pre run rest Hpre Hrun Hne Hstop).
  cbn. destruct (String.eqb_spec run ""); congruence.
Qed.

Definition sample_metrics : list Metric :=
  [ {| id := "cash"; value := "$142,000"; change := None |};
    {| id := "runway"; value := "5.1 months"; change := Some "about 5.1 months left" |} ].

Lemma runwayMonths_extracts_witness : runwayMonths (Some sample_metrics) = "5.1".
Proof.
  apply (runwayMonths_extracts_the_first_run sample_metrics
           {| id := "runway"; value := "5.1 months";
              change := Some "about 5.1 months left" |}
           "about " "5.1" " months left");
    try reflexivity.
  discriminate.
Defined.

End DashboardFigures.

(* ================================================================== *)
(** ** The authentication pages in use: forms, Google sign-in *)

Module AuthFlows.
Import AuthStore AuthPages.
Open Scope eff_scope.

(** What the backend answers to a Google credential. *)
Record GoogleUser : Type := {
  g_id : string;
  g_email : string;
  full_name : option string;
  profile_picture : option string;
  oauth_provider : option string
}.

Record GoogleAuthResponse : Type := {
  access_token : string;
  token_type : string;
  is_new_user : bool;
  g_user : GoogleUser
}.

(** [x || ''] on an optional text. *)
Definition textOrEmpty (x : option string) : string :=
  match x with
  | Some s => if String.eqb s "" then "" else s
  | None => ""
  end.

(** Truthiness of an optional text. *)
Definition truthyText (x : option string) : bool :=
  match x with
  | Some s => negb (String.eqb s "")
  | None => false
  end.

Section Flows.

Variable isEmail : string -> bool.
Variable storeLogin : User -> string -> AuthState -> AuthState.

(** *** LoginPage *)

(** The form's [onSubmit={handleSubmit(onSubmit)}]. *)
Definition LoginPage_submit (reply : Js.Completion (User * string))
    (values : LoginFormData) : Js.Eff World unit :=
  handleSubmit isEmail loginSchema (LoginPage_onSubmit storeLogin reply) values.

(** The messages rendered under the inputs: the login form renders
    [errors.email] only. *)
Definition LoginPage_fieldMessages (p : PageState) : list (option string) :=
  [ fieldError (errors p) "email" ].

(** The user the Google handlers put in the store. *)
Definition googleUser (response : GoogleAuthResponse) (onboarded : bool) : User :=
  {| AuthStore.id := g_id (g_user response);
     AuthStore.email := g_email (g_user response);
     AuthStore.fullName := textOrEmpty (full_name (g_user response));
     AuthStore.onboardingCompleted := onboarded |}.

Definition LoginPage_onGoogleSuccess (response : GoogleAuthResponse) : Js.Eff World unit :=
  Js.try_catch
    (loginUser storeLogin (googleUser response (negb (is_new_user response)))
       (access_token response) ;;
     if is_new_user response
     then navigate "/onboarding"
     else navigate "/dashboard")
    (fun err => setErrorMessage (Some "Failed to complete login. Please try again.")).

Definition LoginPage_onGoogleError (error : string) : Js.Eff World unit :=
  setErrorMessage (Some error).

(** *** RegisterPage *)

Definition RegisterPage_onGoogleSuccess (response : GoogleAuthResponse)
  : Js.Eff World unit :=
  Js.try_catch
    (loginUser storeLogin (googleUser response false) (access_token response) ;;
     navigate "/onboarding")
    (fun err => Js.ret tt).

Definition RegisterPage_onGoogleError (error : string) : Js.Eff World unit :=
  setErrorMessage (Some error).

(** The banner text after a failed registration call. *)
Definition registerFailureText (e : Js.Thrown) : string :=
  match e with
  | Js.ErrorObject message => messageOr message "Registration failed. Please try again."
  | Js.OtherValue => "Registration failed. Please try again."
  end.

(** The login schema in words: a well-formed email address and a password
    of at least one character. *)
Definition satisfiesLoginSchema (values : LoginFormData) : bool :=
  isEmail (lf_email values) && (1 <=? String.length (lf_password values))%nat.

End Flows.

(** *** GoogleSignInButton *)

Record ButtonState : Type := {
  clientId : option string;
  isLoading : bool;
  error : option string
}.

Definition button_initial : ButtonState :=
  {| clientId := None; isLoading := true; error := None |}.

Inductive ApiCall : Type :=
| ApiGet (path : string)
| ApiPost (path : string) (credential : string).

(** The button, the calls made through apiClient, and the page that hosts
    the button and receives its callbacks. *)
Record ButtonWorld : Type := {
  button : ButtonState;
  apiCalls : list ApiCall;
  host : World
}.

Definition setButton (f : ButtonState -> ButtonState) : Js.Eff ButtonWorld unit :=
  Js.modify (fun w => {| button := f (button w); apiCalls := apiCalls w; host := host w |}).

Definition setClientId (c : option string) : Js.Eff ButtonWorld unit :=
  setButton (fun b => {| clientId := c; isLoading := isLoading b; error := error b |}).

Definition setIsLoading (l : bool) : Js.Eff ButtonWorld unit :=
  setButton (fun b => {| clientId := clientId b; isLoading := l; error := error b |}).

Definition setError (e : option string) : Js.Eff ButtonWorld unit :=
  setButton (fun b => {| clientId := clientId b; isLoading := isLoading b; error := e |}).

(** An awaited call through apiClient, settled by the environment. *)
Definition apiCall {B : Type} (call : ApiCall) (reply : Js.Completion B)
  : Js.Eff ButtonWorld B :=
  fun w => (reply, {| button := button w; apiCalls := (apiCalls w ++ [call])%list;
                      host := host w |}).

(** A callback of the hosting page, run on the page's world. *)
Definition inHost {A : Type} (m : Js.Eff World A) : Js.Eff ButtonWorld A :=
  fun w =>
    match m (host w) with
    | (c, h') => (c, {| button := button w; apiCalls := apiCalls w; host := h' |})
    end.

(** [reply] is the answer's [client_id]. *)
Definition fetchClientId (reply : Js.Completion string) : Js.Eff ButtonWorld unit :=
  Js.try_catch_finally
    (response <- apiCall (ApiGet "/auth/google/client-id") reply ;;
     setClientId (Some response))
    (fun _ => setError (Some "Google Sign-In not available"))
    (setIsLoading false).

(** [err instanceof Error ? err.message : 'Google authentication failed'] *)
Definition googleFailureText (e : Js.Thrown) : string :=
  match e with
  | Js.ErrorObject message => message
  | Js.OtherValue => "Google authentication failed"
  end.

(** [onError] may be left out by the host. *)
Definition handleCredentialResponse
    (onSuccess : GoogleAuthResponse -> Js.Eff World unit)
    (onError : option (string -> Js.Eff World unit))
    (reply : Js.Completion GoogleAuthResponse) (credential : string)
  : Js.Eff ButtonWorld unit :=
  Js.try_catch
    (authResponse <- apiCall (ApiPost "/auth/google" credential) reply ;;
     inHost (onSuccess authResponse))
    (fun err =>
       setError (Some (googleFailureText err)) ;;
       match onError with
       | Some callback => inHost (callback (googleFailureText err))
       | None => Js.ret tt
       end).

Inductive ButtonView : Type :=
| Placeholder
| Hidden
| GoogleButton.

Definition GoogleSignInButton (b : ButtonState) : ButtonView :=
  if isLoading b then Placeholder
  else if truthyText (error b) || negb (truthyText (clientId b)) then Hidden
  else GoogleButton.

(** *** Properties *)

Ltac run_auth :=
  unfold Js.exec, Js.completion, LoginPage_submit, LoginPage_onGoogleSuccess,
    LoginPage_onGoogleError, RegisterPage_onGoogleSuccess, RegisterPage_onGoogleError,
    LoginPage_onSubmit, RegisterPage_onSubmit, fetchClientId, handleCredentialResponse,
    inHost, apiCall, setClientId, setIsLoading, setError, setButton,
    Js.try_catch_finally, Js.try_finally, Js.try_catch, Js.bind, Js.ret, callService,
    loginUser, navigate, setIsSubmitting, setErrorMessage, setErrors, setPage, Js.modify;
  cbn [fst snd page auth loginUserCalls navigations serviceCalls
       isSubmitting errorMessage errors button apiCalls host clientId isLoading error].

(** Only the empty text has length 0. *)
Lemma stringLength_below_one (s : string) :
  (Js.stringLength s <? 1)%nat = (String.length s <? 1)%nat.
Proof.
  destruct s as [| c rest]; [reflexivity |].
  unfold Js.stringLength. cbn [Js.lengthFrom String.length].
  repeat match goal with
         | |- context [if ?b then _ else _] => destruct b
         end; reflexivity.
Qed.

Lemma registerFailureText_nonempty (e : Js.Thrown) : registerFailureText e <> "".
Proof.
  destruct e as [message |]; simpl; [| discriminate].
  apply messageOr_nonempty. discriminate.
Qed.

(** When the registration call throws, the page shows a non-empty message
    (the error's own, or the fixed text), navigates nowhere and does not
    touch the auth store; when it succeeds, the returned user is logged in
    and the page goes to /onboarding, whatever the user's onboarding flag
    says.  In both cases the call is made once and the submit button is
    released. *)
Theorem register_submission_outcomes
    (storeLogin : User -> string -> AuthState -> AuthState) :
  (forall (e : Js.Thrown) (data : RegisterFormData) (w : World),
      let w' := Js.exec (RegisterPage_onSubmit storeLogin (Js.Abrupt e) data) w in
      errorMessage (page w') = Some (registerFailureText e) /\
      registerFailureText e <> "" /\
      navigations w' = navigations w /\
      auth w' = auth w /\
      loginUserCalls w' = loginUserCalls w /\
      isSubmitting (page w') = false) /\
  (forall (u : User) (tok : string) (data : RegisterFormData) (w : World),
      let w' := Js.exec (RegisterPage_onSubmit storeLogin (Js.Normal (u, tok)) data) w in
      loginUserCalls w' = (loginUserCalls w ++ [(u, tok)])%list /\
      auth w' = storeLogin u tok (auth w) /\
      navigations w' = (navigations w ++ ["/onboarding"])%list /\
      errorMessage (page w') = None /\
      isSubmitting (page w') = false) /\
  (forall (reply : Js.Completion (User * string)) (data : RegisterFormData) (w : World),
      serviceCalls (Js.exec (RegisterPage_onSubmit storeLogin reply data) w)
      = (serviceCalls w ++
          [RegisterCall (rf_fullName data) (rf_email data) (rf_password data)])%list).
Proof.
  split; [| split].
  - intros e data w w'. subst w'. run_auth.
    pose proof (registerFailureText_nonempty e) as Hne.
    destruct e as [message |]; cbn; repeat split; exact Hne.
  - intros u tok data w w'. subst w'. run_auth. repeat split.
  - intros reply data w. run_auth.
    destruct reply as [[u tok] | [message |]]; reflexivity.
Qed.

(** Submitting the login form calls the login service exactly when the
    email is well-formed and the password is not empty, and then once with
    the values typed.  The form renders the email message only: a
    well-formed email with an empty password blocks the submission and
    shows no message at all. *)
Theorem login_called_only_for_valid_input
    (isEmail : string -> bool) (storeLogin : User -> string -> AuthState -> AuthState)
    (reply : Js.Completion (User * string)) (values : LoginFormData) (w : World) :
  let w' := Js.exec (LoginPage_submit isEmail storeLogin reply values) w in
  serviceCalls w'
    = (if satisfiesLoginSchema isEmail values
       then (serviceCalls w ++ [LoginCall (lf_email values) (lf_password values)])%list
       else serviceCalls w) /\
  LoginPage_fieldMessages (page w')
    = [ if isEmail (lf_email values) then None else Some "Invalid email address" ] /\
  (isEmail (lf_email values) = true -> lf_password values = "" ->
     serviceCalls w' = serviceCalls w /\
     LoginPage_fieldMessages (page w') = [None] /\
     errorMessage (page w') = errorMessage (page w) /\
     fieldError (errors (page w')) "password" = Some "Password is required").
Proof.
  intros w'. subst w'.
  unfold LoginPage_submit, handleSubmit, satisfiesLoginSchema, LoginPage_fieldMessages.
  cbn [zodResolver loginSchema firstIssue runCheck].
  rewrite stringLength_below_one, ltb_is_not_leb.
  destruct (isEmail (lf_email values)) eqn:He;
    destruct (1 <=? String.length (lf_password values))%nat eqn:Hp;
    cbn [negb andb].
  - run_auth.
    split; [| split].
    + destruct reply as [[[i m n []] tok] | [message |]]; reflexivity.
    + destruct reply as [[[i m n []] tok] | [message |]]; reflexivity.
    + intros _ E. rewrite E in Hp. discriminate Hp.
  - run_auth. repeat split.
  - split; [reflexivity |]. split; [reflexivity |]. intros H. discriminate H.
  - split; [reflexivity |]. split; [reflexivity |]. intros H. discriminate H.
Qed.

Lemma login_called_only_witness :
  let w' := Js.exec (LoginPage_submit hasAt signIn (Js.Normal (jane, "t0k"))
                       {| lf_email := "jane@startup.com"; lf_password := "" |})
              fresh_world in
  serviceCalls w' = [] /\ LoginPage_fieldMessages (page w') = [None].
Proof.
  destruct (login_called_only_for_valid_input hasAt signIn (Js.Normal (jane, "t0k"))
              {| lf_email := "jane@startup.com"; lf_password := "" |} fresh_world)
    as [_ [_ H]].
  destruct (H eq_refl eq_refl) as [Hc [Hm _]].
  split; [exact Hc | exact Hm].
Defined.

(** Signing in with Google stores a user whose onboarding flag is the
    negation of is_new_user and whose name is never null, and goes to
    /dashboard exactly when that stored flag is true, to /onboarding
    otherwise: the rule of the password form. *)
Theorem google_login_destination_matches_flag
    (storeLogin : User -> string -> AuthState -> AuthState)
    (response : GoogleAuthResponse) (w : World) :
  let w' := Js.exec (LoginPage_onGoogleSuccess storeLogin response) w in
  let u := googleUser response (negb (is_new_user response)) in
  loginUserCalls w' = (loginUserCalls w ++ [(u, access_token response)])%list /\
  auth w' = storeLogin u (access_token response) (auth w) /\
  navigations w'
    = (navigations w ++
        [if onboardingCompleted u then "/dashboard" else "/onboarding"])%list /\
  onboardingCompleted u = negb (is_new_user response) /\
  errorMessage (page w') = errorMessage (page w).
Proof.
  intros w' u. subst w' u. run_auth.
  destruct (is_new_user response); cbn; repeat split.
Qed.

(** Signing up with Google always stores the user as not yet onboarded and
    goes to /onboarding, also when the backend says the account already
    existed. *)
Theorem google_signup_always_onboards
    (storeLogin : User -> string -> AuthState -> AuthState)
    (response : GoogleAuthResponse) (w : World) :
  let w' := Js.exec (RegisterPage_onGoogleSuccess storeLogin response) w in
  loginUserCalls w'
    = (loginUserCalls w ++ [(googleUser response false, access_token response)])%list /\
  (forall u tok, In (u, tok) (loginUserCalls w') -> ~ In (u, tok) (loginUserCalls w) ->
     onboardingCompleted u = false) /\
  navigations w' = (navigations w ++ ["/onboarding"])%list.
Proof.
  intros w'. subst w'. run_auth. split; [reflexivity |]. split; [| reflexivity].
  intros u tok Hin Hnot. apply in_app_or in Hin. destruct Hin as [Hin | Hin].
  - contradiction.
  - destruct Hin as [E | []]. injection E as <- _. reflexivity.
Qed.

(** After the client id has been asked for, the placeholder is gone: the
    Google button is shown exactly when the backend returned a non-empty
    client id, and the component renders nothing otherwise. *)
Theorem google_button_after_client_id_fetch (reply : Js.Completion string)
    (calls : list ApiCall) (h : World) :
  let w' := Js.exec (fetchClientId reply)
              {| button := button_initial; apiCalls := calls; host := h |} in
  GoogleSignInButton (button w')
    = match reply with
      | Js.Normal client_id => if String.eqb client_id "" then Hidden else GoogleButton
      | Js.Abrupt _ => Hidden
      end /\
  Js.completion (fetchClientId reply)
    {| button := button_initial; apiCalls := calls; host := h |} = Js.Normal tt /\
  apiCalls w' = (calls ++ [ApiGet "/auth/google/client-id"])%list /\
  host w' = h.
Proof.
  intros w'. subst w'. unfold GoogleSignInButton. run_auth.
  destruct reply as [client_id | e]; cbn; [| repeat split].
  destruct (String.eqb client_id ""); repeat split.
Qed.

(** When the exchange of the Google credential fails, the host's onSuccess
    is not run: the failure text (the error's message, or the fixed text)
    is kept by the button and handed to the host's onError, if there is
    one.  The handler itself does not throw unless onError does. *)
Theorem failed_google_exchange_is_reported
    (onSuccess : GoogleAuthResponse -> Js.Eff World unit)
    (onError : string -> Js.Eff World unit)
    (e : Js.Thrown) (credential : string) (w : ButtonWorld) :
  let w' := Js.exec (handleCredentialResponse onSuccess (Some onError)
                       (Js.Abrupt e) credential) w in
  error (button w') = Some (googleFailureText e) /\
  host w' = Js.exec (onError (googleFailureText e)) (host w) /\
  apiCalls w' = (apiCalls w ++ [ApiPost "/auth/google" credential])%list /\
  Js.completion (handleCredentialResponse onSuccess (Some onError)
                   (Js.Abrupt e) credential) w
    = Js.completion (onError (googleFailureText e)) (host w) /\
  (let v := Js.exec (handleCredentialResponse onSuccess None (Js.Abrupt e) credential) w in
   host v = host w /\ error (button v) = Some (googleFailureText e)).
Proof.
  intros w'. subst w'. run_auth.
  destruct (onError (googleFailureText e) (host w)) as [c h'].
  cbn. repeat split.
Qed.

(** On the login page a failed exchange shows the failure text in the
    page's banner, logs nobody in and navigates nowhere; the Google button
    disappears unless the text is empty. *)
Theorem failed_google_login_shows_banner
    (storeLogin : User -> string -> AuthState -> AuthState)
    (e : Js.Thrown) (credential : string) (w : ButtonWorld) :
  isLoading (button w) = false ->
  let w' := Js.exec (handleCredentialResponse (LoginPage_onGoogleSuccess storeLogin)
                       (Some LoginPage_onGoogleError) (Js.Abrupt e) credential) w in
  errorMessage (page (host w')) = Some (googleFailureText e) /\
  loginUserCalls (host w') = loginUserCalls (host w) /\
  navigations (host w') = navigations (host w) /\
  auth (host w') = auth (host w) /\
  (googleFailureText e <> "" -> GoogleSignInButton (button w') = Hidden).
Proof.
  intros Hl w'. subst w'. unfold GoogleSignInButton. run_auth. rewrite Hl.
  repeat split. intros Hne. cbn.
  destruct (String.eqb_spec (googleFailureText e) ""); [contradiction | reflexivity].
Qed.

Lemma failed_google_login_witness :
  let w' := Js.exec (handleCredentialResponse (LoginPage_onGoogleSuccess signIn)
                       (Some LoginPage_onGoogleError)
                       (Js.Abrupt (Js.ErrorObject "Invalid Google token")) "cred")
              {| button := {| clientId := Some "client-1"; isLoading := false;
                              error := None |};
                 apiCalls := []; host := fresh_world |} in
  errorMessage (page (host w')) = Some "Invalid Google token" /\
  GoogleSignInButton (button w') = Hidden.
Proof.
  destruct (failed_google_login_shows_banner signIn (Js.ErrorObject "Invalid Google token")
              "cred"
              {| button := {| clientId := Some "client-1"; isLoading := false;
                              error := None |};
                 apiCalls := []; host := fresh_world |} eq_refl)
    as [Hm [_ [_ [_ Hv]]]].
  split; [exact Hm | apply Hv; discriminate].
Defined.

End AuthFlows.

(* ================================================================== *)
(** ** Sidebar: which navigation entry is highlighted *)

Module Sidebar.

Record NavEntry : Type := {
  to : string;
  label : string
}.

Definition menuItems : list NavEntry :=
  [ {| to := "/"; label := "Dashboard" |};
    {| to := "/scenarios"; label := "Scenarios" |};
    {| to := "/ideation"; label := "Ideation" |};
    {| to := "/roadmaps"; label := "Roadmaps" |};
    {| to := "/investors"; label := "Investors" |} ].

Definition generalItems : list NavEntry :=
  [ {| to := "/settings"; label := "Settings" |};
    {| to := "/help"; label := "Help" |} ].

(** [s.startsWith(t)] *)
Fixpoint startsWith (s t : string) {struct t} : bool :=
  match t with
  | EmptyString => true
  | String c t' =>
      match s with
      | EmptyString => false
      | String d s' => Ascii.eqb c d && startsWith s' t'
      end
  end.

(** [NavItem]'s [isMatch]: an exact match for the home entry, a match by
    prefix of [window.location.pathname] for the others. *)
Definition isMatch (target : string) (isActive : bool) (windowPath : string) : bool :=
  if String.eqb target "/" then isActive
  else isActive || startsWith windowPath target.

(** Whether an entry is highlighted when the router and the window agree on
    the path. *)
Definition highlighted (pathname : string) (item : NavEntry) : bool :=
  isMatch (to item) (String.eqb pathname (to item)) pathname.

(** The entries of both sections, top to bottom, each with its highlight. *)
Definition Sidebar (pathname windowPath : string) : list (NavEntry * bool) :=
  map (fun item => (item, isMatch (to item) (String.eqb pathname (to item)) windowPath))
      (menuItems ++ generalItems).

(** *** Helper lemmas *)

Lemma startsWith_refl (s : string) : startsWith s s = true.
Proof.
  induction s as [| c s IH]; [reflexivity |].
  cbn. rewrite Ascii.eqb_refl. exact IH.
Qed.

Lemma startsWith_common (p : string) :
  forall a b : string,
    startsWith p a = true -> startsWith p b = true ->
    startsWith a b = true \/ startsWith b a = true.
Proof.
  induction p as [| d p IH]; intros a b Ha Hb.
  - destruct a; [right; destruct b; reflexivity | discriminate Ha].
  - destruct a as [| ca a]; [right; destruct b; reflexivity |].
    destruct b as [| cb b]; [left; reflexivity |].
    cbn in Ha, Hb. apply andb_true_iff in Ha, Hb.
    destruct Ha as [Ea Ha], Hb as [Eb Hb].
    apply Ascii.eqb_eq in Ea, Eb. subst ca cb.
    cbn. rewrite Ascii.eqb_refl. cbn. exact (IH a b Ha Hb).
Qed.

Lemma isMatch_rule (pathname target : string) :
  isMatch target (String.eqb pathname target) pathname
  = if String.eqb target "/" then String.eqb pathname "/" else startsWith pathname target.
Proof.
  unfold isMatch.
  destruct (String.eqb_spec target "/") as [-> | _]; [reflexivity |].
  destruct (String.eqb_spec pathname target) as [-> | _]; [| reflexivity].
  rewrite startsWith_refl. reflexivity.
Qed.

Lemma highlighted_startsWith (pathname : string) (item : NavEntry) :
  highlighted pathname item = true -> startsWith pathname (to item) = true.
Proof.
  unfold highlighted. rewrite isMatch_rule.
  destruct (String.eqb_spec (to item) "/") as [E | _]; [| tauto].
  intros H. apply String.eqb_eq in H. rewrite H, E. reflexivity.
Qed.

Lemma filter_none {A : Type} (f : A -> bool) (l : list A) :
  (forall x, In x l -> f x = false) -> filter f l = [].
Proof.
  induction l as [| x l IH]; intros H; [reflexivity |].
  cbn. rewrite (H x (or_introl eq_refl)). apply IH.
  intros y Hy. apply H. right. exact Hy.
Qed.

Lemma filter_exclusive {A : Type} (f : A -> bool) (l : list A) :
  NoDup l ->
  (forall a b, In a l -> In b l -> f a = true -> f b = true -> a = b) ->
  (List.length (filter f l) <= 1)%nat.
Proof.
  induction 1 as [| x l Hx Hnd IH]; intros Hex; [cbn; lia |].
  cbn. destruct (f x) eqn:Fx.
  - rewrite filter_none; [cbn; lia |].
    intros y Hy. destruct (f y) eqn:Fy; [| reflexivity].
    exfalso. apply Hx.
    rewrite (Hex x y (or_introl eq_refl) (or_intror Hy) Fx Fy). exact Hy.
  - apply IH. intros a b Ha Hb. apply Hex; right; assumption.
Qed.

Lemma filter_snd_map {A : Type} (f : A -> bool) (l : list A) :
  List.length (filter snd (map (fun x => (x, f x)) l)) = List.length (filter f l).
Proof.
  induction l as [| x l IH]; [reflexivity |].
  cbn. destruct (f x); cbn; rewrite IH; reflexivity.
Qed.

Lemma items_distinct : NoDup (menuItems ++ generalItems).
Proof.
  cbn. repeat constructor; cbn; intuition discriminate.
Qed.

Lemma highlighted_exclusive (pathname : string) (a b : NavEntry) :
  In a (menuItems ++ generalItems) -> In b (menuItems ++ generalItems) ->
  highlighted pathname a = true -> highlighted pathname b = true -> a = b.
Proof.
  intros Ha Hb Fa Fb.
  pose proof (highlighted_startsWith _ _ Fa) as Sa.
  pose proof (highlighted_startsWith _ _ Fb) as Sb.
  destruct (startsWith_common pathname _ _ Sa Sb) as [S | S];
    cbn in Ha, Hb;
    repeat (destruct Ha as [<- | Ha]; [| try contradiction]);
    repeat (destruct Hb as [<- | Hb]; [| try contradiction]);
    try reflexivity; try discriminate S;
    unfold highlighted in Fa, Fb; cbn in Fa, Fb;
    first [ apply String.eqb_eq in Fa; subst pathname; discriminate Fb
          | apply String.eqb_eq in Fb; subst pathname; discriminate Fa ].
Qed.

(** *** Properties *)

(** On every path at most one entry of the sidebar is highlighted. *)
Theorem at_most_one_entry_highlighted (pathname : string) :
  (List.length (filter snd (Sidebar pathname pathname)) <= 1)%nat.
Proof.
  unfold Sidebar.
  rewrite (filter_snd_map (highlighted pathname)).
  apply filter_exclusive; [exact items_distinct |].
  intros a b. apply highlighted_exclusive.
Qed.

(** The home entry is highlighted on the path "/" only; every other entry
    is highlighted on each path that starts with its target, so also on the
    pages below it.  On /dashboard, where the login page sends a returning
    user, no entry is highlighted. *)
Theorem highlighting_rule :
  (forall pathname target : string,
      isMatch target (String.eqb pathname target) pathname
      = if String.eqb target "/" then String.eqb pathname "/"
        else startsWith pathname target) /\
  (forall (item : NavEntry) (below : string),
      to item <> "/" -> highlighted (to item ++ below) item = true) /\
  filter snd (Sidebar "/dashboard" "/dashboard") = [].
Proof.
  split; [exact isMatch_rule |]. split; [| reflexivity].
  intros item below Hroot. unfold highlighted. rewrite isMatch_rule.
  destruct (String.eqb_spec (to item) "/") as [E | _]; [contradiction |].
  induction (to item) as [| c t IH]; [reflexivity |].
  cbn. rewrite Ascii.eqb_refl. cbn.
  clear Hroot IH. induction t as [| d t IH]; [reflexivity |].
  cbn. rewrite Ascii.eqb_refl. exact IH.
Qed.

End Sidebar.

(* ================================================================== *)
(** ** InvestorDirectoryPage: a filter change on a paged list *)

Module DirectoryRace.
Import Http Investors.
Open Scope eff_scope.

(** [loadInvestors] up to its [await], for the state [s] of the render
    whose closure it is: the spinner for that state is set and the request
    leaves. *)
Definition loadInvestors_beginWith (env : option string) (s : DirectoryState)
  : Js.Eff (World DirectoryState) unit :=
  (if (skip s =? 0)%Z then setState (withLoading true)
   else setState (withLoadingMore true)) ;;
  (fun w =>
     (Js.Normal tt,
      {| ui := ui w;
         requests := (requests w ++
                       [ {| method := "GET";
                            url := directoryUrl env (stageFilter s) (hqFilter s)
                                     (sortBy s) (skip s);
                            headers := []; payload := NoPayload |} ])%list |})).

(** The same for a render that shows the current state; the state is
    returned. *)
Definition loadInvestors_begin (env : option string)
  : Js.Eff (World DirectoryState) DirectoryState :=
  s <- getState ;;
  loadInvestors_beginWith env s ;;
  Js.ret s.

(** [loadInvestors] from its [await] on, for the state [s] it captured. *)
Definition loadInvestors_finish (s : DirectoryState)
    (reply : Js.Completion (Response DirectoryPageData))
  : Js.Eff (World DirectoryState) unit :=
  Js.try_catch_finally
    (data <- (response <- Js.settle reply ;;
              if negb (ok response)
              then Js.throw (Js.ErrorObject "Failed to fetch filtered investors")
              else
                d <- Js.settle (json response) ;;
                Js.ret {| investors := investors d; total := total d |}) ;;
     (if (skip s =? 0)%Z
      then setState (withInvestors (fun _ => investors data))
      else setState (withInvestors (fun prev => (prev ++ investors data)%list))) ;;
     setState (withTotalCount (total data)))
    (fun _ => Js.ret tt)
    (setState (withLoading false) ;; setState (withLoadingMore false)).

(** The commit that follows a change of filters.  Both effects run with
    the state of that render: the reset effect calls [setSkip(0)], then the
    load effect starts, still with the render's [skip].  The render's state
    is returned. *)
Definition commitFilterChange (env : option string) (stage hq sort : string)
  : Js.Eff (World DirectoryState) DirectoryState :=
  setState (withFilters stage hq sort) ;;
  render <- getState ;;
  resetSkip ;;
  loadInvestors_beginWith env render ;;
  Js.ret render.

(** A change of filters while [skip] is not 0, up to the moment both
    requests it causes have been answered: the commit starts a load for the
    old offset and resets [skip]; the render that follows starts the load
    for offset 0; the answers arrive in the order asked, or the other way
    round when [staleLast] is set. *)
Definition filterChangeWhilePaged (env : option string) (stage hq sort : string)
    (staleReply freshReply : Js.Completion (Response DirectoryPageData))
    (staleLast : bool) : Js.Eff (World DirectoryState) unit :=
  stale <- commitFilterChange env stage hq sort ;;
  fresh <- loadInvestors_begin env ;;
  if staleLast
  then loadInvestors_finish fresh freshReply ;; loadInvestors_finish stale staleReply
  else loadInvestors_finish stale staleReply ;; loadInvestors_finish fresh freshReply.

(** *** Helper lemmas *)

Ltac run_race :=
  unfold Js.exec, Js.completion, filterChangeWhilePaged, commitFilterChange,
    loadInvestors_begin, loadInvestors_beginWith,
    loadInvestors_finish, loadInvestors, fetchFilteredInvestors, resetSkip,
    Js.try_catch_finally, Js.try_finally, Js.try_catch, Js.bind, fetch, setState,
    getState, Js.modify, Js.ret, Js.throw, Js.settle;
  cbn [fst snd ui requests ok status json].

(** *** Properties *)

(** Run without interruption, the two halves of [loadInvestors] are
    [loadInvestors]. *)
Theorem loadInvestors_is_begin_then_finish (env : option string)
    (reply : Js.Completion (Response DirectoryPageData)) (w : World DirectoryState) :
  (captured <- loadInvestors_begin env ;; loadInvestors_finish captured reply) w
  = loadInvestors env reply w.
Proof.
  run_race.
  destruct reply as [[[|] st [d | e]] | e];
    destruct (skip (ui w) =? 0)%Z eqn:E; cbn; rewrite ?E; reflexivity.
Qed.

(** A change of filters on a list that has been paged (skip not 0) sends
    two requests under the new filters, the first for the old offset and the
    second for offset 0, and leaves skip at 0.  When the answers arrive in
    the order asked, the list ends as the first page of the new filters;
    when the answer for the old offset arrives last, its page is appended
    after that first page. *)
Theorem filter_change_on_paged_list (env : option string) (stage hq sort : string)
    (stalePage freshPage : list InvestorMatch) (n : Z) (staleLast : bool)
    (w : World DirectoryState) :
  skip (ui w) <> 0%Z ->
  let w' := Js.exec (filterChangeWhilePaged env stage hq sort
                       (pageReply stalePage n) (pageReply freshPage n) staleLast) w in
  map url (requests w')
    = (map url (requests w) ++
        [ directoryUrl env stage hq sort (skip (ui w));
          directoryUrl env stage hq sort 0 ])%list /\
  skip (ui w') = 0%Z /\
  dir_investors (ui w')
    = (if staleLast then (freshPage ++ stalePage)%list else freshPage) /\
  loading (ui w') = false /\ loadingMore (ui w') = false.
Proof.
  intros Hs w'. subst w'. apply Z.eqb_neq in Hs.
  run_race. cbn. rewrite Hs. cbn.
  destruct staleLast; cbn; rewrite ?Hs; cbn;
    rewrite !map_app, <- app_assoc; cbn; repeat split.
Qed.

Lemma filter_change_on_paged_list_witness :
  let w := Js.exec (loadMore None (pageReply [sample_investor] 120))
             (Js.exec (loadInvestors None (pageReply [sample_investor] 120))
                directory_start) in
  dir_investors
    (ui (Js.exec (filterChangeWhilePaged None "Seed" "All" "name_asc"
                    (pageReply [sample_investor] 7) (pageReply [] 7) true) w))
  = [sample_investor].
Proof.
  intros w.
  destruct (filter_change_on_paged_list None "Seed" "All" "name_asc"
              [sample_investor] [] 7 true w) as [_ [_ [H _]]].
  - discriminate.
  - exact H.
Defined.

End DirectoryRace.

(* ================================================================== *)
(** ** The match score, from the backend's answer to the badge *)

Module MatchScore.
Import PrimFloat.
Import Http Investors.
Open Scope eff_scope.

(** *** InvestorDirectoryPage, event by event *)

(** What can happen on the directory page.  A load is either run without
    interruption ([Loaded]) or in its two halves: [LoadStarted] is the part
    before the [await], [LoadAnswered] the part after it; [render] is the
    state the closure captured, which other events may have overtaken. *)
Inductive DirectoryEvent : Type :=
| FiltersChosen (stage hq sort : string)
| SkipReset
| LoadMoreClicked
| Loaded (env : option string) (reply : Js.Completion (Response DirectoryPageData))
| LoadStarted (env : option string) (render : DirectoryState)
| LoadAnswered (render : DirectoryState)
    (reply : Js.Completion (Response DirectoryPageData)).

Definition directoryStep (ev : DirectoryEvent) : Js.Eff (World DirectoryState) unit :=
  match ev with
  | FiltersChosen stage hq sort => setState (withFilters stage hq sort)
  | SkipReset => resetSkip
  | LoadMoreClicked => onLoadMoreClick
  | Loaded env reply => loadInvestors env reply
  | LoadStarted env render => DirectoryRace.loadInvestors_beginWith env render
  | LoadAnswered render reply => DirectoryRace.loadInvestors_finish render reply
  end.

Definition directoryRun (events : list DirectoryEvent) (w : World DirectoryState)
  : World DirectoryState :=
  fold_left (fun w' ev => Js.exec (directoryStep ev) w') events w.

(** The investor records in the body of an answer of the directory
    endpoint. *)
Definition sentPage (reply : Js.Completion (Response DirectoryPageData))
  : list InvestorMatch :=
  match reply with
  | Js.Normal response =>
      match json response with
      | Js.Normal data => investors data
      | Js.Abrupt _ => []
      end
  | Js.Abrupt _ => []
  end.

Definition directoryEventSent (ev : DirectoryEvent) : list InvestorMatch :=
  match ev with
  | Loaded _ reply => sentPage reply
  | LoadAnswered _ reply => sentPage reply
  | _ => []
  end.

(** Every record the backend has sent to the directory page so far. *)
Definition directoryReceived (events : list DirectoryEvent) : list InvestorMatch :=
  flat_map directoryEventSent events.

(** *** InvestorMatchList, event by event *)

(** [getMatches] up to its [await]. *)
Definition getMatches_begin (env : option string) : Js.Eff (World MatchListState) unit :=
  setLoading true ;;
  (fun w =>
     (Js.Normal tt,
      {| ui := ui w;
         requests := (requests w ++
                       [ {| method := "POST";
                            url := baseUrl env ++ "/api/v1/ai/match/investors";
                            headers := [("Content-Type", "application/json")];
                            payload := MatchRequest startupPitch 250000 "Early Revenue" |} ])%list |})).

(** [getMatches] from its [await] on. *)
Definition getMatches_finish (reply : Js.Completion (Response MatchResults))
  : Js.Eff (World MatchListState) unit :=
  Js.try_catch_finally
    (results <- Js.try_catch
                  (response <- Js.settle reply ;;
                   if negb (ok response)
                   then Js.throw (Js.ErrorObject
                                    ("Error fetching matches: "
                                     ++ Js.toString (status response)))
                   else Js.settle (json response))
                  (fun error => Js.throw error) ;;
     setInvestors (top_investors results))
    (fun _ => Js.ret tt)
    (setLoading false).

(** What can happen on the match list: the effect runs without
    interruption, or in its two halves. *)
Inductive MatchListEvent : Type :=
| Matched (env : option string) (reply : Js.Completion (Response MatchResults))
| MatchStarted (env : option string)
| MatchAnswered (reply : Js.Completion (Response MatchResults)).

Definition matchListStep (ev : MatchListEvent) : Js.Eff (World MatchListState) unit :=
  match ev with
  | Matched env reply => getMatches env reply
  | MatchStarted env => getMatches_begin env
  | MatchAnswered reply => getMatches_finish reply
  end.

Definition matchListRun (events : list MatchListEvent) (w : World MatchListState)
  : World MatchListState :=
  fold_left (fun w' ev => Js.exec (matchListStep ev) w') events w.

(** The investor records in the body of an answer of the matching
    endpoint. *)
Definition sentMatches (reply : Js.Completion (Response MatchResults))
  : list InvestorMatch :=
  match reply with
  | Js.Normal response =>
      match json response with
      | Js.Normal results => top_investors results
      | Js.Abrupt _ => []
      end
  | Js.Abrupt _ => []
  end.

Definition matchListEventSent (ev : MatchListEvent) : list InvestorMatch :=
  match ev with
  | Matched _ reply => sentMatches reply
  | MatchAnswered reply => sentMatches reply
  | MatchStarted _ => []
  end.

Definition matchListReceived (events : list MatchListEvent) : list InvestorMatch :=
  flat_map matchListEventSent events.

Definition matchList_start : World MatchListState :=
  {| ui := matchList_initial; requests := [] |}.

(** The cards on screen; none while the engine is announced as running. *)
Definition matchListCards (s : MatchListState) : list Card :=
  match InvestorMatchList s with
  | RunningEngine => []
  | CardGrid cards => cards
  end.

(** *** Helper lemmas *)

(** [roundHalfUp n e] is the integer within a half of [n * 2 ^ e], the
    upper one of two. *)
Lemma roundHalfUp_nearest (n e : Z) :
  (inject_Z (Js.roundHalfUp n e) - (1 # 2) <= inject_Z n * 2 ^ e)%Q /\
  (inject_Z n * 2 ^ e < inject_Z (Js.roundHalfUp n e) + (1 # 2))%Q.
Proof.
  unfold Js.roundHalfUp. destruct (Z.leb_spec 0 e) as [He | He].
  - assert (E : (2 ^ e == inject_Z (2 ^ e)%Z)%Q)
      by (rewrite Zpower_Qpower by exact He; reflexivity).
    rewrite E, <- inject_Z_mult.
    split; lra.
  - set (k := (- e)%Z). assert (Hk : (0 <= k)%Z) by (unfold k; lia).
    replace e with (- k)%Z by (unfold k; lia).
    rewrite Qpower_opp.
    assert (E : (2 ^ k == inject_Z (2 ^ k)%Z)%Q)
      by (rewrite Zpower_Qpower by exact Hk; reflexivity).
    rewrite E. clear E.
    set (d := (2 ^ k)%Z).
    assert (Hd : (0 < d)%Z) by (unfold d; apply Z.pow_pos_nonneg; lia).
    set (z := ((2 * n + d) / (2 * d))%Z).
    pose proof (Z.div_mod (2 * n + d) (2 * d) ltac:(lia)) as Hdiv.
    pose proof (Z.mod_pos_bound (2 * n + d) (2 * d) ltac:(lia)) as Hmod.
    fold z in Hdiv.
    assert (H1 : (2 * d * z <= 2 * n + d)%Z) by lia.
    assert (H2 : (2 * n + d < 2 * d * z + 2 * d)%Z) by lia.
    assert (H1q : (inject_Z 2 * inject_Z d * inject_Z z
                   <= inject_Z 2 * inject_Z n + inject_Z d)%Q)
      by (rewrite <- !inject_Z_mult, <- inject_Z_plus, <- Zle_Qle; exact H1).
    assert (H2q : (inject_Z 2 * inject_Z n + inject_Z d
                   < inject_Z 2 * inject_Z d * inject_Z z + inject_Z 2 * inject_Z d)%Q)
      by (rewrite <- !inject_Z_mult, <- !inject_Z_plus, <- Zlt_Qlt; exact H2).
    assert (HD : (inject_Z 0 < inject_Z d)%Q) by (rewrite <- Zlt_Qlt; exact Hd).
    change (inject_Z 0) with 0%Q in HD.
    change (inject_Z 2) with 2%Q in H1q, H2q.
    change (inject_Z n * / inject_Z d)%Q with (inject_Z n / inject_Z d)%Q.
    split.
    + apply Qle_shift_div_l; [exact HD |]. lra.
    + apply Qlt_shift_div_r; [exact HD |]. lra.
Qed.

(** Only one integer lies within a half of a number, the upper half
    excluded. *)
Lemma nearest_unique (q : Q) (a b : Z) :
  (inject_Z a - (1 # 2) <= q)%Q -> (q < inject_Z a + (1 # 2))%Q ->
  (inject_Z b - (1 # 2) <= q)%Q -> (q < inject_Z b + (1 # 2))%Q ->
  a = b.
Proof.
  intros Ha1 Ha2 Hb1 Hb2.
  assert (H1 : (inject_Z a < inject_Z (b + 1))%Q)
    by (rewrite inject_Z_plus; change (inject_Z 1) with 1%Q; lra).
  assert (H2 : (inject_Z b < inject_Z (a + 1))%Q)
    by (rewrite inject_Z_plus; change (inject_Z 1) with 1%Q; lra).
  rewrite <- Zlt_Qlt in H1, H2. lia.
Qed.

Ltac run_list :=
  unfold Js.exec, Js.completion, getMatches, getMatches_begin, getMatches_finish,
    setInvestors, setLoading, fetchMatchedInvestors,
    DirectoryRace.loadInvestors_beginWith, DirectoryRace.loadInvestors_finish,
    loadInvestors, fetchFilteredInvestors, resetSkip, onLoadMoreClick,
    Js.try_catch_finally, Js.try_finally, Js.try_catch, Js.bind, fetch, setState,
    getState, Js.modify, Js.ret, Js.throw, Js.settle;
  cbn [fst snd ui requests ok status json].

(** Run without interruption, the two halves of [getMatches] are
    [getMatches]. *)
Lemma getMatches_is_begin_then_finish (env : option string)
    (reply : Js.Completion (Response MatchResults)) (w : World MatchListState) :
  (getMatches_begin env ;; getMatches_finish reply) w = getMatches env reply w.
Proof.
  run_list. destruct reply as [[[|] st [d | e]] | e]; reflexivity.
Qed.

(** One event adds to the directory's list nothing but records of the
    answer it carries. *)
Lemma directoryStep_adds_sent_only (ev : DirectoryEvent) (w : World DirectoryState) :
  incl (dir_investors (ui (Js.exec (directoryStep ev) w)))
       (dir_investors (ui w) ++ directoryEventSent ev).
Proof.
  destruct ev as [stage hq sort | | | env reply | env render | render reply];
    cbn [directoryStep directoryEventSent].
  - rewrite app_nil_r. apply incl_refl.
  - rewrite app_nil_r. apply incl_refl.
  - rewrite app_nil_r. apply incl_refl.
  - run_list.
    destruct reply as [[[|] st [d | e]] | e];
      destruct (skip (ui w) =? 0)%Z; cbn;
      first [ apply incl_refl | apply incl_appr, incl_refl | apply incl_appl, incl_refl ].
  - rewrite app_nil_r. run_list. destruct (skip render =? 0)%Z; apply incl_refl.
  - run_list.
    destruct reply as [[[|] st [d | e]] | e];
      destruct (skip render =? 0)%Z; cbn;
      first [ apply incl_refl | apply incl_appr, incl_refl | apply incl_appl, incl_refl ].
Qed.

Lemma directoryRun_shows_received_only (events : list DirectoryEvent)
    (w : World DirectoryState) (known : list InvestorMatch) :
  incl (dir_investors (ui w)) known ->
  incl (dir_investors (ui (directoryRun events w))) (known ++ directoryReceived events).
Proof.
  revert w known. induction events as [| ev rest IH]; intros w known H.
  - cbn. rewrite app_nil_r. exact H.
  - cbn [directoryRun fold_left directoryReceived flat_map].
    rewrite app_assoc. apply IH.
    eapply incl_tran; [apply directoryStep_adds_sent_only |].
    apply incl_app; [apply incl_appl, H | apply incl_appr, incl_refl].
Qed.

Lemma matchListStep_adds_sent_only (ev : MatchListEvent) (w : World MatchListState) :
  incl (ml_investors (ui (Js.exec (matchListStep ev) w)))
       (ml_investors (ui w) ++ matchListEventSent ev).
Proof.
  destruct ev as [env reply | env | reply]; cbn [matchListStep matchListEventSent].
  - run_list.
    destruct reply as [[[|] st [d | e]] | e]; cbn;
      first [ apply incl_refl | apply incl_appr, incl_refl | apply incl_appl, incl_refl ].
  - rewrite app_nil_r. apply incl_refl.
  - run_list.
    destruct reply as [[[|] st [d | e]] | e]; cbn;
      first [ apply incl_refl | apply incl_appr, incl_refl | apply incl_appl, incl_refl ].
Qed.

Lemma matchListRun_shows_received_only (events : list MatchListEvent)
    (w : World MatchListState) (known : list InvestorMatch) :
  incl (ml_investors (ui w)) known ->
  incl (ml_investors (ui (matchListRun events w))) (known ++ matchListReceived events).
Proof.
  revert w known. induction events as [| ev rest IH]; intros w known H.
  - cbn. rewrite app_nil_r. exact H.
  - cbn [matchListRun fold_left matchListReceived flat_map].
    rewrite app_assoc. apply IH.
    eapply incl_tran; [apply matchListStep_adds_sent_only |].
    apply incl_app; [apply incl_appl, H | apply incl_appr, incl_refl].
Qed.

(** *** Properties *)

(** C5: the application only renders the investor match score, it does not
    compute it.  For every investor record, the badge of its card holds the
    number [Math.round] returns for the double product of the record's
    [match_score] and 100, followed by the text "% Match": when the product
    is the finite double [m * 2 ^ e] (negated if [negative]), that number is
    the integer [z] with [z - 1/2 <= m * 2 ^ e < z + 1/2]; a zero gives 0,
    and a product that is not finite is shown as it is.  On the directory
    page and on the match list, after any sequence of events (filters,
    clicks, resets, loads run whole or in halves that other events
    interleave, with any answers), every card on screen is the card of a
    record that an answer of the backend carried, the record being passed
    to the card as it was received.  A page that is answered successfully is
    shown in full and in order: it replaces the directory's cards when [skip]
    is 0 and is appended to them otherwise, and the matches of a successful
    answer become the cards of the match list. *)
Theorem match_score_is_rendered_not_computed :
  (forall investor : InvestorMatch,
     exists n : Js.Rounded,
       badge (InvestorCard investor) = [NumberChild n; TextChild "% Match"] /\
       match FloatOps.Prim2SF (PrimFloat.mul (match_score investor) 100%float) with
       | SpecFloat.S754_finite negative m e =>
           exists z : Z,
             n = Js.Integral z /\
             (inject_Z z - (1 # 2)
              <= inject_Z (if negative then Z.neg m else Z.pos m) * 2 ^ e)%Q /\
             (inject_Z (if negative then Z.neg m else Z.pos m) * 2 ^ e
              < inject_Z z + (1 # 2))%Q
       | SpecFloat.S754_zero _ => n = Js.Integral 0
       | SpecFloat.S754_infinity false => n = Js.PlusInfinity
       | SpecFloat.S754_infinity true => n = Js.MinusInfinity
       | SpecFloat.S754_nan => n = Js.NotANumber
       end) /\
  (forall (events : list DirectoryEvent) (card : Card),
     In card (directoryCards (ui (directoryRun events directory_start))) ->
     exists investor : InvestorMatch,
       In investor (directoryReceived events) /\ card = InvestorCard investor) /\
  (forall (events : list MatchListEvent) (card : Card),
     In card (matchListCards (ui (matchListRun events matchList_start))) ->
     exists investor : InvestorMatch,
       In investor (matchListReceived events) /\ card = InvestorCard investor) /\
  (forall (events : list DirectoryEvent) (env : option string)
          (page : list InvestorMatch) (n : Z),
     directoryCards
       (ui (directoryRun (events ++ [Loaded env (pageReply page n)]) directory_start))
     = if (skip (ui (directoryRun events directory_start)) =? 0)%Z
       then map InvestorCard page
       else (directoryCards (ui (directoryRun events directory_start))
             ++ map InvestorCard page)%list) /\
  (forall (events : list MatchListEvent) (env : option string) (code : Z)
          (results : MatchResults),
     matchListCards
       (ui (matchListRun
              (events ++ [Matched env (Js.Normal {| ok := true; status := code;
                                                    json := Js.Normal results |})])
              matchList_start))
     = map InvestorCard (top_investors results)).
Proof.
  split; [| split; [| split; [| split]]].
  - intros investor. exists (matchPercent investor). split; [reflexivity |].
    unfold matchPercent, Js.round.
    destruct (FloatOps.Prim2SF (PrimFloat.mul (match_score investor) 100%float))
      as [s | [|] | | s m e]; try reflexivity.
    exists (Js.roundHalfUp (if s then Z.neg m else Z.pos m) e).
    split; [reflexivity | apply roundHalfUp_nearest].
  - intros events card H. unfold directoryCards in H.
    apply in_map_iff in H. destruct H as [investor [E Hin]].
    exists investor. split; [| symmetry; exact E].
    apply (directoryRun_shows_received_only events directory_start []);
      [apply incl_refl | exact Hin].
  - intros events card H. unfold matchListCards, InvestorMatchList in H.
    destruct (ml_loading (ui (matchListRun events matchList_start))); [contradiction |].
    apply in_map_iff in H. destruct H as [investor [E Hin]].
    exists investor. split; [| symmetry; exact E].
    apply (matchListRun_shows_received_only events matchList_start []);
      [apply incl_refl | exact Hin].
  - intros events env page n. unfold directoryRun. rewrite fold_left_app.
    cbn [fold_left directoryStep]. unfold directoryCards.
    set (w := fold_left _ events directory_start).
    destruct (Z.eq_dec (skip (ui w)) 0) as [E | E].
    + destruct (loadInvestors_fresh env page n w E) as [H _]. rewrite H.
      apply Z.eqb_eq in E. rewrite E. reflexivity.
    + rewrite (loadInvestors_more env page n w E), map_app.
      apply Z.eqb_neq in E. rewrite E. reflexivity.
  - intros events env code results. unfold matchListRun. rewrite fold_left_app.
    cbn [fold_left matchListStep]. reflexivity.
Qed.

(** An investor whose score is received as the double nearest to 0.285. *)
#[warnings="-inexact-float"]
Definition close_call : InvestorMatch :=
  {| investor_id := 3; name := "Harbour Capital"; match_score := 0.285%float;
     website := "https://harbour.example"; hq := "Lisbon"; type := "Angel" |}.

(** That double and its product with 100 lie below the half: the badge
    shows 28. *)
Lemma match_score_is_rendered_not_computed_witness :
  badge (InvestorCard close_call)
  = [NumberChild (Js.Integral 28); TextChild "% Match"].
Proof.
  destruct match_score_is_rendered_not_computed as [Hbadge _].
  destruct (Hbadge close_call) as [n [Hshown Hn]].
  assert (E : FloatOps.Prim2SF (PrimFloat.mul (match_score close_call) 100%float)
              = SpecFloat.S754_finite false 8022036836253695 (-48)) by reflexivity.
  rewrite E in Hn. destruct Hn as [z [Hz [Hlow Hhigh]]].
  rewrite Hshown, Hz. repeat f_equal.
  apply (nearest_unique (inject_Z 8022036836253695 * 2 ^ (-48)) z 28).
  - exact Hlow.
  - exact Hhigh.
  - vm_compute. discriminate.
  - vm_compute. reflexivity.
Defined.

End MatchScore.
